(** * OPC UA gateway: subscription engine, value cache, dispatcher,
      credential provisioning and the MQTT publish loop

    A shallow embedding of [opcua_connector.py] (class [OpcUaConnector] and
    its [SubHandler]) and of the [MqttPublisher] class of
    [all_in_one_gateway.py].

    Python methods mutate [self] and may raise; they are embedded in a state
    monad with exceptions in which the state survives a raise, so that
    [try]/[except]/[finally] read as in the source.  Everything the classes
    call but do not define (the OPC UA client library, the clock, the
    registered callbacks, the cryptography library, the failures of the
    operating system, [json.dumps], the MQTT client) is a field of an
    environment record acting on an abstract outside world; every such call
    is recorded in a trace, so that "is called", "is logged" and "is not
    attempted" are statements about the trace.

    The first part is the model: the monad, the data, the methods of the
    two classes and a small concrete environment for examples.  The second
    part states and proves the properties, each with the observations it
    needs: the dispatcher, session teardown, provisioning, connecting, the
    notification handler, subscribing, the shape of the cache and the
    publish loop. *)

From Stdlib Require Import ZArith Ascii String List Lia.
From stdpp Require Import base option list gmap strings fin_maps pretty.

Local Open Scope string_scope.
Local Open Scope list_scope.

(** ** Exceptions and the method monad *)

(** A Python exception, kept as its message. *)
Definition Exn : Type := string.

Inductive Outcome (A : Type) : Type :=
| Normal (a : A)
| Raised (e : Exn).
Arguments Normal {A} a.
Arguments Raised {A} e.

(** The type of [None], which a method without a [return] value gives. *)
Abbreviation NoneType := Datatypes.unit (only parsing).

(** A method body over a mutable state [St]. *)
Definition Py (St A : Type) : Type := St → Outcome A * St.

Definition ret {St A} (a : A) : Py St A := λ s, (Normal a, s).

Definition raise {St A} (e : Exn) : Py St A := λ s, (Raised e, s).

Definition bind {St A B} (m : Py St A) (k : A → Py St B) : Py St B :=
  λ s, match m s with
       | (Normal a, s') => k a s'
       | (Raised e, s') => (Raised e, s')
       end.

(** [try: m  except Exception as e: h e] *)
Definition try_except {St A} (m : Py St A) (h : Exn → Py St A) : Py St A :=
  λ s, match m s with
       | (Normal a, s') => (Normal a, s')
       | (Raised e, s') => h e s'
       end.

(** [try: m  finally: f] *)
Definition try_finally {St A} (m : Py St A) (f : Py St unit) : Py St A :=
  λ s, let '(r, s') := m s in
       match f s' with
       | (Normal _, s'') => (r, s'')
       | (Raised e, s'') => (Raised e, s'')
       end.

Definition get {St} : Py St St := λ s, (Normal s, s).
Definition modify {St} (f : St → St) : Py St unit := λ s, (Normal tt, f s).

Declare Scope py_scope.
Delimit Scope py_scope with py.
Notation "x ← y ; z" := (bind y (λ x, z))
  (at level 20, y at level 100, z at level 200, only parsing) : py_scope.
Notation "y ;; z" := (bind y (λ _, z))
  (at level 100, z at level 200, only parsing, right associativity) : py_scope.

(** [for x in l: body x] *)
Fixpoint for_each {St A} (l : list A) (body : A → Py St unit) : Py St unit :=
  match l with
  | [] => ret tt
  | x :: l' => bind (body x) (λ _, for_each l' body)
  end.

(** ** Data model *)

(** Opaque tokens handed out by the OPC UA client library, and the identity
    of a registered callback. *)
Definition Client : Type := nat.
Definition Subscription : Type := nat.
Definition Handle : Type := Z.
Definition SinkId : Type := nat.

(** One element of [nodes_to_monitor]: the dict with keys ['id'], ['name']
    and ['unit'] built by [__init__]. *)
Record MonitoredPoint : Type := {
  node_id : string;
  node_name : string;
  node_unit : string
}.

#[global] Instance MonitoredPoint_eq_dec : EqDecision MonitoredPoint.
Proof. solve_decision. Defined.

Inductive Level : Type := DEBUG | INFO | WARNING | ERROR.

(** The file system as far as [generate_certificates] looks at it. *)
Record FileSystem : Type := {
  cwd : string;
  dirs : gset string;
  files : gmap string (list Byte.byte)
}.

(** Calls to the operating system that can fail. *)
Inductive IoCall : Type :=
| IoGetcwd
| IoMakedirs (path : string)
| IoOpen (path : string)
| IoWrite (path : string).

(** [posixpath.join a b] for one relative or absolute component [b]. *)
Fixpoint endswith_sep (a : string) : bool :=
  match a with
  | EmptyString => false
  | String c EmptyString => bool_decide (c = "/"%char)
  | String _ a' => endswith_sep a'
  end.

Definition path_join (a b : string) : string :=
  if String.prefix "/" b then b
  else if bool_decide (a = "") || endswith_sep a then a +:+ b
  else a +:+ "/" +:+ b.

(** [os.path.exists]: a file or a directory is there.  A directory is
    there when it was made or when something below it is. *)
Definition path_exists (path : string) (d : FileSystem) : bool :=
  bool_decide (path ∈ dirs d) || bool_decide (is_Some (files d !! path))
  || existsb (String.prefix (path +:+ "/"))
             (elements (dirs d) ++ (map_to_list (files d)).*1).

Section Gateway.

(** The outside world, the dynamically typed values the server delivers,
    [datetime] instants, [opcua.Node] objects, RSA keys and X.509
    certificates are not defined by the repository. *)
Context {W Value Time Node PrivateKey Certificate : Type}.

(** What a Python variable of the modelled code can hold. *)
Inductive PyObj : Type :=
| PyStr (s : string)
| PyVal (v : Value)
| PyTime (t : Time).

(** The dict literal [{"value": .., "unit": .., "timestamp": ..}]. *)
Definition value_record (value unit timestamp : PyObj) : gmap string PyObj :=
  <["value" := value]> (<["unit" := unit]> {["timestamp" := timestamp]}).

(** The [logger] calls of [opcua_connector.py], one constructor per
    format string, with the interpolated values as arguments. *)
Inductive Message : Type :=
| MsgGeneratingCertificates
| MsgUsingExistingCertificates (cert_dir : string)
| MsgCertificateGenerated (cert_path : string)
| MsgPrivateKeyGenerated (private_key_path : string)
| MsgErrorGeneratingCertificates (e : Exn)
| MsgSettingSecurity (security_string : string)
| MsgConnecting (endpoint_url : string)
| MsgConnectedSuccessfully
| MsgErrorConnecting (e : Exn)
| MsgErrorCleaningUpSubscription (e : Exn)
| MsgDisconnecting
| MsgDisconnectedSuccessfully
| MsgErrorDisconnecting (e : Exn)
| MsgCannotSubscribe
| MsgCreatedSubscription
| MsgSubscribedTo (name nid : string)
| MsgInitialValue (name : string) (value : Value) (unit : string)
| MsgCouldNotReadInitialValue (nid : string) (e : Exn)
| MsgFailedToSubscribe (nid : string) (e : Exn)
| MsgErrorSubscribing (e : Exn)
| MsgErrorInCallback (e : Exn)
| MsgDataChange (name : string) (val : Value) (unit_str : string)
| MsgUnknownNode (nid : string) (val : Value)
| MsgErrorInNotification (e : Exn).

(** Calls that leave the class, in the order they are made; [EvRaised]
    follows a call that raised. *)
Inductive Event : Type :=
| EvLog (lvl : Level) (msg : Message)
| EvCallback (callback : SinkId) (name : string) (value : Value)
             (unit : string) (timestamp : Time)
| EvClient (url : string)
| EvSetSecurityString (c : Client) (security_string : string)
| EvSetApplicationUri (c : Client) (uri : string)
| EvSetSecurityChecks (c : Client) (b : bool)
| EvClientConnect (c : Client)
| EvClientDisconnect (c : Client)
| EvCreateSubscription (c : Client) (period : Z)
| EvGetNode (c : Client) (nid : string)
| EvSubscribeDataChange (sub : Subscription) (node : Node)
| EvGetValue (node : Node)
| EvUnsubscribe (sub : Subscription) (handle : Handle)
| EvSubscriptionDelete (sub : Subscription)
| EvIo (call : IoCall)
| EvGeneratePrivateKey
| EvPrivateBytes
| EvSignCertificate (uri : string) (not_before : Time) (days : Z)
| EvPublicBytes
| EvRaised (e : Exn).

(** The collaborators.  A call takes the world to a new world and either
    returns or raises. *)
Record Env : Type := {
  datetime_now : W → Time * W;
  isoformat : Time → string;
  callback_call :
    SinkId → string → Value → string → Time → W → Outcome unit * W;
  Client_new : string → W → Outcome Client * W;
  set_security_string : Client → string → W → Outcome unit * W;
  set_application_uri : Client → string → W → W;
  set_security_checks : Client → bool → W → W;
  client_connect : Client → W → Outcome unit * W;
  client_disconnect : Client → W → Outcome unit * W;
  create_subscription : Client → Z → W → Outcome Subscription * W;
  get_node : Client → string → W → Outcome Node * W;
  subscribe_data_change : Subscription → Node → W → Outcome Handle * W;
  get_value : Node → W → Outcome Value * W;
  unsubscribe : Subscription → Handle → W → Outcome unit * W;
  subscription_delete : Subscription → W → Outcome unit * W;
  nodeid_to_string : Node → string;
  io_fault : IoCall → W → option Exn * W;
  generate_private_key : W → Outcome PrivateKey * W;
  private_bytes : PrivateKey → W → Outcome (list Byte.byte) * W;
  datetime_now_utc : W → Time * W;
  sign_certificate :
    PrivateKey → string → Time → Z → W → Outcome Certificate * W;
  public_bytes : Certificate → W → Outcome (list Byte.byte) * W
}.

(** The fields of an [OpcUaConnector] instance ([self.config] is only
    read by [__init__]). *)
Record OpcUaConnector : Type := {
  endpoint_url : string;
  application_uri : string;
  security_policy : string;
  security_mode : string;
  nodes_to_monitor : list MonitoredPoint;
  client : option Client;
  subscription : option Subscription;
  handles : list Handle;
  connected : bool;
  latest_values : gmap string (gmap string PyObj);
  value_callbacks : list SinkId
}.

Definition with_client (x : option Client) (c : OpcUaConnector) :=
  {| endpoint_url := endpoint_url c; application_uri := application_uri c;
     security_policy := security_policy c; security_mode := security_mode c;
     nodes_to_monitor := nodes_to_monitor c; client := x;
     subscription := subscription c; handles := handles c;
     connected := connected c; latest_values := latest_values c;
     value_callbacks := value_callbacks c |}.

Definition with_subscription (x : option Subscription) (c : OpcUaConnector) :=
  {| endpoint_url := endpoint_url c; application_uri := application_uri c;
     security_policy := security_policy c; security_mode := security_mode c;
     nodes_to_monitor := nodes_to_monitor c; client := client c;
     subscription := x; handles := handles c;
     connected := connected c; latest_values := latest_values c;
     value_callbacks := value_callbacks c |}.

Definition with_handles (x : list Handle) (c : OpcUaConnector) :=
  {| endpoint_url := endpoint_url c; application_uri := application_uri c;
     security_policy := security_policy c; security_mode := security_mode c;
     nodes_to_monitor := nodes_to_monitor c; client := client c;
     subscription := subscription c; handles := x;
     connected := connected c; latest_values := latest_values c;
     value_callbacks := value_callbacks c |}.

Definition with_connected (x : bool) (c : OpcUaConnector) :=
  {| endpoint_url := endpoint_url c; application_uri := application_uri c;
     security_policy := security_policy c; security_mode := security_mode c;
     nodes_to_monitor := nodes_to_monitor c; client := client c;
     subscription := subscription c; handles := handles c;
     connected := x; latest_values := latest_values c;
     value_callbacks := value_callbacks c |}.

Definition with_latest_values (x : gmap string (gmap string PyObj))
    (c : OpcUaConnector) :=
  {| endpoint_url := endpoint_url c; application_uri := application_uri c;
     security_policy := security_policy c; security_mode := security_mode c;
     nodes_to_monitor := nodes_to_monitor c; client := client c;
     subscription := subscription c; handles := handles c;
     connected := connected c; latest_values := x;
     value_callbacks := value_callbacks c |}.

Definition with_value_callbacks (x : list SinkId) (c : OpcUaConnector) :=
  {| endpoint_url := endpoint_url c; application_uri := application_uri c;
     security_policy := security_policy c; security_mode := security_mode c;
     nodes_to_monitor := nodes_to_monitor c; client := client c;
     subscription := subscription c; handles := handles c;
     connected := connected c; latest_values := latest_values c;
     value_callbacks := x |}.

(** What a method of the connector runs on: the instance, the disk, the
    rest of the world and the trace of outgoing calls so far. *)
Record State : Type := {
  self : OpcUaConnector;
  disk : FileSystem;
  world : W;
  trace : list Event
}.

Definition on_self (f : OpcUaConnector → OpcUaConnector) (s : State) : State :=
  {| self := f (self s); disk := disk s; world := world s; trace := trace s |}.
Definition on_disk (f : FileSystem → FileSystem) (s : State) : State :=
  {| self := self s; disk := f (disk s); world := world s; trace := trace s |}.
Definition emit (ev : Event) (s : State) : State :=
  {| self := self s; disk := disk s; world := world s;
     trace := trace s ++ [ev] |}.
Definition with_world (w : W) (s : State) : State :=
  {| self := self s; disk := disk s; world := w; trace := trace s |}.

Variable E : Env.

Local Open Scope py_scope.

(** An outgoing call: recorded, then answered by the environment. *)
Definition emit_outcome {A} (r : Outcome A) (s : State) : State :=
  match r with
  | Normal _ => s
  | Raised e => emit (EvRaised e) s
  end.

Definition ext {A} (ev : Event) (f : W → Outcome A * W) : Py State A :=
  λ s, let '(r, w) := f (world s) in
       (r, with_world w (emit_outcome r (emit ev s))).

(** An outgoing call that cannot raise. *)
Definition ext_total {A} (f : W → A * W) : Py State A :=
  λ s, let '(a, w) := f (world s) in (Normal a, with_world w s).

Definition log (lvl : Level) (msg : Message) : Py State unit :=
  modify (emit (EvLog lvl msg)).

Definition get_self : Py State OpcUaConnector :=
  λ s, (Normal (self s), s).
Definition set_self (f : OpcUaConnector → OpcUaConnector) : Py State unit :=
  modify (on_self f).

(** [self.client.<method>] and [self.subscription.<method>]: an attribute
    of [None] raises. *)
Definition the_client : Py State Client :=
  c ← get_self;
  match client c with
  | Some cl => ret cl
  | None => raise "AttributeError: 'NoneType' object has no attribute"
  end.
Definition the_subscription : Py State Subscription :=
  c ← get_self;
  match subscription c with
  | Some sub => ret sub
  | None => raise "AttributeError: 'NoneType' object has no attribute"
  end.

(** *** [add_value_callback] *)
Definition add_value_callback (callback : SinkId) : Py State unit :=
  c ← get_self;
  set_self (with_value_callbacks (value_callbacks c ++ [callback])).

(** *** [_notify_callbacks] *)
Definition _notify_callbacks (name : string) (value : Value) (unit : string)
    : Py State NoneType :=
  timestamp ← ext_total (datetime_now E);
  c ← get_self;
  for_each (value_callbacks c) (λ callback,
    try_except
      (ext (EvCallback callback name value unit timestamp)
           (callback_call E callback name value unit timestamp))
      (λ e, log ERROR (MsgErrorInCallback e))).

(** [self.latest_values[name] = {"value": .., "unit": .., "timestamp":
    datetime.datetime.now().isoformat()}], shared by both write paths. *)
Definition store_latest (name : string) (value : Value) (unit : string)
    : Py State NoneType :=
  now ← ext_total (datetime_now E);
  c ← get_self;
  set_self (with_latest_values
    (<[name := value_record (PyVal value) (PyStr unit)
                            (PyStr (isoformat E now))]> (latest_values c))).

(** *** [SubHandler.datachange_notification]; the [data] argument is
    unused by the source. *)
Definition datachange_notification (node : Node) (val : Value)
    : Py State unit :=
  try_except
    (let nid := nodeid_to_string E node in
     c ← get_self;
     match find (λ n, bool_decide (node_id n = nid)) (nodes_to_monitor c) with
     | Some node_info =>
         let name := node_name node_info in
         let unit := node_unit node_info in
         store_latest name val unit;;
         let unit_str := if bool_decide (unit = "") then "" else " " +:+ unit in
         log INFO (MsgDataChange name val unit_str);;
         _notify_callbacks name val unit
     | None => log INFO (MsgUnknownNode nid val)
     end)
    (λ e, log ERROR (MsgErrorInNotification e)).

(** *** [disconnect] *)
Definition disconnect : Py State unit :=
  c ← get_self;
  match subscription c with
  | Some _ =>
      try_except
        (for_each (handles c) (λ handle,
           sub ← the_subscription;
           ext (EvUnsubscribe sub handle) (unsubscribe E sub handle));;
         set_self (with_handles []);;
         sub ← the_subscription;
         ext (EvSubscriptionDelete sub) (subscription_delete E sub);;
         set_self (with_subscription None))
        (λ e, log WARNING (MsgErrorCleaningUpSubscription e))
  | None => ret tt
  end;;
  c ← get_self;
  match client c with
  | Some _ =>
      try_finally
        (try_except
           (log INFO MsgDisconnecting;;
            cl ← the_client;
            ext (EvClientDisconnect cl) (client_disconnect E cl);;
            log INFO MsgDisconnectedSuccessfully)
           (λ e, log ERROR (MsgErrorDisconnecting e)))
        (set_self (with_client None);;
         set_self (with_connected false))
  | None => ret tt
  end.

(** *** [subscribe_to_nodes]; [subscribe_node] is the body of its
    [for node_info in self.nodes_to_monitor] loop. *)
Definition subscribe_node (node_info : MonitoredPoint) : Py State NoneType :=
  let nid := node_id node_info in
  try_except
    (cl ← the_client;
     node ← ext (EvGetNode cl nid) (get_node E cl nid);
     sub ← the_subscription;
     handle ← ext (EvSubscribeDataChange sub node)
                  (subscribe_data_change E sub node);
     c ← get_self;
     set_self (with_handles (handles c ++ [handle]));;
     log INFO (MsgSubscribedTo (node_name node_info) nid);;
     try_except
       (value ← ext (EvGetValue node) (get_value E node);
        let unit := node_unit node_info in
        log INFO (MsgInitialValue (node_name node_info) value unit);;
        store_latest (node_name node_info) value unit;;
        _notify_callbacks (node_name node_info) value unit)
       (λ e, log WARNING (MsgCouldNotReadInitialValue nid e)))
    (λ e, log ERROR (MsgFailedToSubscribe nid e)).

Definition subscribe_to_nodes : Py State bool :=
  c ← get_self;
  if negb (connected c) || negb (bool_decide (is_Some (client c))) then
    log ERROR MsgCannotSubscribe;;
    ret false
  else
    try_except
      (cl ← the_client;
       sub ← ext (EvCreateSubscription cl 500) (create_subscription E cl 500);
       set_self (with_subscription (Some sub));;
       log INFO MsgCreatedSubscription;;
       set_self (with_handles []);;
       c ← get_self;
       for_each (nodes_to_monitor c) subscribe_node;;
       ret true)
      (λ e, log ERROR (MsgErrorSubscribing e);; ret false).

(** *** The [os] and file calls of [generate_certificates].  Whether a
    call fails is the environment's choice; a call that does not fail has
    its effect on the disk. *)
Definition os_call (call : IoCall) : Py State NoneType :=
  ext (EvIo call)
      (λ w, let '(r, w') := io_fault E call w in
            (match r with Some e => Raised e | None => Normal tt end, w')).

Definition write_file (path : string) (data : list Byte.byte)
    (d : FileSystem) : FileSystem :=
  {| cwd := cwd d; dirs := dirs d; files := <[path := data]> (files d) |}.

Definition os_getcwd : Py State string :=
  os_call IoGetcwd;;
  s ← get;
  ret (cwd (disk s)).

Definition os_path_exists (path : string) : Py State bool :=
  s ← get;
  ret (path_exists path (disk s)).

Definition os_makedirs (path : string) : Py State NoneType :=
  os_call (IoMakedirs path);;
  modify (on_disk (λ d,
    {| cwd := cwd d; dirs := {[path]} ∪ dirs d; files := files d |})).

(** [open(path, "wb")] creates or truncates the file. *)
Definition open_wb (path : string) : Py State NoneType :=
  os_call (IoOpen path);;
  modify (on_disk (write_file path [])).

Definition file_write (path : string) (data : list Byte.byte)
    : Py State NoneType :=
  os_call (IoWrite path);;
  modify (on_disk (write_file path data)).

(** *** [generate_certificates].  The subject name, the subject
    alternative name with [self.application_uri], the builder chain and
    the signature are one call, [sign_certificate], which is given the
    start of validity and the number of days. *)
Definition generate_certificates : Py State (string * string) :=
  try_except
    (log INFO MsgGeneratingCertificates;;
     here ← os_getcwd;
     let cert_dir := path_join here "certificates" in
     dir_exists ← os_path_exists cert_dir;
     (if negb dir_exists then os_makedirs cert_dir else ret tt);;
     let cert_path := path_join cert_dir "certificate.der" in
     let private_key_path := path_join cert_dir "private_key.pem" in
     cert_exists ← os_path_exists cert_path;
     both_exist ← (if cert_exists then os_path_exists private_key_path
                   else ret false);
     if both_exist then
       log INFO (MsgUsingExistingCertificates cert_dir);;
       ret (cert_path, private_key_path)
     else
       private_key ← ext EvGeneratePrivateKey (generate_private_key E);
       open_wb private_key_path;;
       pem ← ext EvPrivateBytes (private_bytes E private_key);
       file_write private_key_path pem;;
       now ← ext_total (datetime_now_utc E);
       c ← get_self;
       cert ← ext (EvSignCertificate (application_uri c) now 365)
                  (sign_certificate E private_key (application_uri c) now 365);
       open_wb cert_path;;
       der ← ext EvPublicBytes (public_bytes E cert);
       file_write cert_path der;;
       log INFO (MsgCertificateGenerated cert_path);;
       log INFO (MsgPrivateKeyGenerated private_key_path);;
       ret (cert_path, private_key_path))
    (λ e, log ERROR (MsgErrorGeneratingCertificates e);; raise e).

(** *** [connect] *)
Definition connect : Py State bool :=
  try_except
    (paths ← generate_certificates;
     let '(cert_path, private_key_path) := paths in
     c ← get_self;
     cl ← ext (EvClient (endpoint_url c)) (Client_new E (endpoint_url c));
     set_self (with_client (Some cl));;
     let security_string :=
       security_policy c +:+ "," +:+ security_mode c +:+ "," +:+
       cert_path +:+ "," +:+ private_key_path in
     log INFO (MsgSettingSecurity security_string);;
     cl ← the_client;
     ext (EvSetSecurityString cl security_string)
         (set_security_string E cl security_string);;
     cl ← the_client;
     ext (EvSetApplicationUri cl (application_uri c))
         (λ w, (Normal tt, set_application_uri E cl (application_uri c) w));;
     cl ← the_client;
     ext (EvSetSecurityChecks cl false)
         (λ w, (Normal tt, set_security_checks E cl false w));;
     log INFO (MsgConnecting (endpoint_url c));;
     cl ← the_client;
     ext (EvClientConnect cl) (client_connect E cl);;
     log INFO MsgConnectedSuccessfully;;
     set_self (with_connected true);;
     ret true)
    (λ e, log ERROR (MsgErrorConnecting e);;
          disconnect;;
          ret false).

(** *** [__init__].  The parsed configuration file maps a section name to
    its options.  The [while] loop over [node{i}_id] is bounded by
    [fuel]; [None] means the bound was reached. *)
Definition config_get (config : gmap string (gmap string string))
    (section option : string) : Outcome string :=
  match config !! section with
  | None => Raised ("NoSectionError: " +:+ section)
  | Some sec =>
      match sec !! option with
      | None => Raised ("NoOptionError: " +:+ option)
      | Some v => Normal v
      end
  end.

Fixpoint parse_nodes (fuel : nat) (monitoring_section : gmap string string)
    (i : nat) (nodes : list MonitoredPoint)
    : option (Outcome (list MonitoredPoint)) :=
  match fuel with
  | O => None
  | S fuel' =>
      match monitoring_section !! ("node" +:+ pretty i +:+ "_id") with
      | None => Some (Normal nodes)
      | Some nid =>
          match monitoring_section !! ("node" +:+ pretty i +:+ "_name") with
          | None => Some (Raised ("KeyError: node" +:+ pretty i +:+ "_name"))
          | Some nname =>
              let nunit :=
                default "" (monitoring_section !! ("node" +:+ pretty i +:+ "_unit")) in
              parse_nodes fuel' monitoring_section (S i)
                (nodes ++ [{| node_id := nid; node_name := nname;
                              node_unit := nunit |}])
          end
      end
  end.

Definition init_fuel (config : gmap string (gmap string string)) : nat :=
  S (size (default ∅ (config !! "MONITORING"))).

Definition OpcUaConnector_init (config : gmap string (gmap string string))
    : option (Outcome OpcUaConnector) :=
  match config_get config "OPCUA" "server_url" with
  | Raised e => Some (Raised e)
  | Normal url =>
  match config_get config "OPCUA" "application_uri" with
  | Raised e => Some (Raised e)
  | Normal uri =>
  match config_get config "OPCUA" "security_policy" with
  | Raised e => Some (Raised e)
  | Normal policy =>
  match config_get config "OPCUA" "security_mode" with
  | Raised e => Some (Raised e)
  | Normal mode =>
  match config !! "MONITORING" with
  | None => Some (Raised "KeyError: MONITORING")
  | Some monitoring_section =>
      match parse_nodes (init_fuel config) monitoring_section 1 [] with
      | None => None
      | Some (Raised e) => Some (Raised e)
      | Some (Normal nodes) =>
          Some (Normal
            {| endpoint_url := url; application_uri := uri;
               security_policy := policy; security_mode := mode;
               nodes_to_monitor := nodes;
               client := None; subscription := None; handles := [];
               connected := false; latest_values := ∅;
               value_callbacks := [] |})
      end
  end end end end end.

End Gateway.

(** ** [MqttPublisher] of [all_in_one_gateway.py] *)

(** A Python dict read in insertion order: assigning to a key that is
    present keeps its place, a new key goes to the end. *)
Fixpoint dict_set {V} (k : string) (v : V) (d : list (string * V))
    : list (string * V) :=
  match d with
  | [] => [(k, v)]
  | (k', v') :: d' =>
      if decide (k' = k) then (k, v) :: d' else (k', v') :: dict_set k v d'
  end.

Module MqttPublisher.
Section Publisher.

Context {W Value Time : Type}.

Inductive Message : Type :=
| MsgConnectedToBroker
| MsgFailedToConnect (rc : Z)
| MsgDisconnectedFromBroker (rc : Z)
| MsgErrorInPublishLoop (e : Exn)
| MsgPublished (topic payload : string)
| MsgErrorPublishing (name : string) (e : Exn).

Inductive Event : Type :=
| EvLog (lvl : Level) (msg : Message)
| EvPublish (topic payload : string) (qos : Z).

(** [json.dumps], [self.client.publish], [datetime.isoformat] and [str]
    (applied to a timestamp that has no [isoformat]). *)
Record Env : Type := {
  json_dumps : gmap string (@PyObj Value Time) → Outcome string;
  client_publish : string → string → Z → W → Outcome NoneType * W;
  isoformat : Time → string;
  str : @PyObj Value Time → string
}.

(** The fields the publish loop and the callbacks use; the interval is
    in milliseconds. *)
Record Publisher : Type := {
  topic_prefix : string;
  publish_interval : Z;
  connected : bool;
  latest_values : list (string * gmap string (@PyObj Value Time));
  keep_running : bool
}.

Definition with_connected (x : bool) (p : Publisher) : Publisher :=
  {| topic_prefix := topic_prefix p; publish_interval := publish_interval p;
     connected := x; latest_values := latest_values p;
     keep_running := keep_running p |}.
Definition with_latest_values
    (x : list (string * gmap string (@PyObj Value Time))) (p : Publisher)
    : Publisher :=
  {| topic_prefix := topic_prefix p; publish_interval := publish_interval p;
     connected := connected p; latest_values := x;
     keep_running := keep_running p |}.
Definition with_keep_running (x : bool) (p : Publisher) : Publisher :=
  {| topic_prefix := topic_prefix p; publish_interval := publish_interval p;
     connected := connected p; latest_values := latest_values p;
     keep_running := x |}.

(** The instance, the world behind the MQTT client, the outgoing calls and
    the time spent in [time.sleep] so far. *)
Record State : Type := {
  self : Publisher;
  world : W;
  trace : list Event;
  slept : Z
}.

Definition on_self (f : Publisher → Publisher) (s : State) : State :=
  {| self := f (self s); world := world s; trace := trace s;
     slept := slept s |}.
Definition emit (ev : Event) (s : State) : State :=
  {| self := self s; world := world s; trace := trace s ++ [ev];
     slept := slept s |}.

(** What the other threads do to the publisher while the loop sleeps:
    the OPC UA delivery thread calls [update_value], the MQTT network
    thread calls [on_connect] and [on_disconnect], the main thread's
    [disconnect] clears [keep_running]. *)
Inductive Interference : Type :=
| CallUpdateValue (name : string) (value : Value) (unit : string)
                  (timestamp : @PyObj Value Time)
| CallOnConnect (rc : Z)
| CallOnDisconnect (rc : Z)
| ClearKeepRunning.

(** Whether the loop left because the flag was cleared, or is still
    running when the observation ends. *)
Inductive LoopStatus : Type := Stopped | StillRunning.

Variable E : Env.

Local Open Scope py_scope.

Definition log (lvl : Level) (msg : Message) : Py State NoneType :=
  modify (emit (EvLog lvl msg)).
Definition get_self : Py State Publisher := λ s, (Normal (self s), s).
Definition set_self (f : Publisher → Publisher) : Py State NoneType :=
  modify (on_self f).

(** *** [on_connect], [on_disconnect] *)
Definition on_connect (rc : Z) : Py State NoneType :=
  if bool_decide (rc = 0%Z) then
    log INFO MsgConnectedToBroker;;
    set_self (with_connected true)
  else
    log ERROR (MsgFailedToConnect rc);;
    set_self (with_connected false).

Definition on_disconnect (rc : Z) : Py State NoneType :=
  log WARNING (MsgDisconnectedFromBroker rc);;
  set_self (with_connected false).

(** *** [update_value], the callback registered with the connector *)
Definition update_value (name : string) (value : Value) (unit : string)
    (timestamp : @PyObj Value Time) : Py State NoneType :=
  let text := match timestamp with
              | PyTime t => isoformat E t
              | other => str E other
              end in
  p ← get_self;
  set_self (with_latest_values
    (dict_set name (value_record (PyVal value) (PyStr unit) (PyStr text))
              (latest_values p))).

(** *** [_publish_values]; [publish_item] is the body of its
    [for name, data in self.latest_values.items()] loop. *)
Definition publish_item (item : string * gmap string (@PyObj Value Time))
    : Py State NoneType :=
  let '(name, data) := item in
  try_except
    (p ← get_self;
     let topic := topic_prefix p +:+ name in
     payload ← (λ s, (json_dumps E data, s));
     (λ s, let '(r, w) := client_publish E topic payload 1 (world s) in
           (r, {| self := self s; world := w;
                  trace := trace s ++ [EvPublish topic payload 1];
                  slept := slept s |}));;
     log DEBUG (MsgPublished topic payload))
    (λ e, log ERROR (MsgErrorPublishing name e)).

Definition _publish_values : Py State NoneType :=
  p ← get_self;
  for_each (latest_values p) publish_item.

(** [time.sleep(self.publish_interval)], during which the other threads
    run. *)
Definition interfere (i : Interference) : Py State NoneType :=
  match i with
  | CallUpdateValue name value unit timestamp =>
      update_value name value unit timestamp
  | CallOnConnect rc => on_connect rc
  | CallOnDisconnect rc => on_disconnect rc
  | ClearKeepRunning => set_self (with_keep_running false)
  end.

Definition time_sleep (during : list Interference) : Py State NoneType :=
  p ← get_self;
  modify (λ s, {| self := self s; world := world s; trace := trace s;
                  slept := (slept s + publish_interval p)%Z |});;
  for_each during interfere.

(** *** [_publish_loop], observed for as many cycles as [schedule] has
    entries; each entry is what happens during that cycle's sleep. *)
Fixpoint _publish_loop (schedule : list (list Interference))
    : Py State LoopStatus :=
  p ← get_self;
  if keep_running p then
    match schedule with
    | [] => ret StillRunning
    | during :: schedule' =>
        try_except
          (p ← get_self;
           if connected p then _publish_values else ret tt)
          (λ e, log ERROR (MsgErrorInPublishLoop e));;
        time_sleep during;;
        _publish_loop schedule'
    end
  else ret Stopped.

End Publisher.
End MqttPublisher.

(** ** A concrete environment for examples *)

#[global] Instance IoCall_eq_dec : EqDecision IoCall.
Proof. solve_decision. Defined.

Module Demo.

(** The world is a clock that advances at each reading; values are
    integers, instants are clock readings, a node is its id string, keys
    and certificates are byte strings. *)
Record Faults : Type := {
  bad_nodes : list string;
  unreadable_nodes : list string;
  bad_handles : list Handle;
  bad_sinks : list SinkId;
  bad_io : list IoCall;
  refuse_connection : bool;
  bad_crypto : bool
}.

Definition no_faults : Faults :=
  {| bad_nodes := []; unreadable_nodes := []; bad_handles := [];
     bad_sinks := []; bad_io := []; refuse_connection := false;
     bad_crypto := false |}.

Definition tick (w : nat) : nat * nat := (w, S w).

Definition answer {A} (fails : bool) (a : A) (w : nat) : Outcome A * nat :=
  (if fails then Raised "simulated failure" else Normal a, w).

Definition env (f : Faults) (reading : string → Z)
    : @Env nat Z nat string (list Byte.byte) (list Byte.byte) :=
  {| datetime_now := tick;
     isoformat := λ t, "T" +:+ pretty t;
     callback_call := λ k _ _ _ _, answer (bool_decide (k ∈ bad_sinks f)) tt;
     Client_new := λ _, answer false 1;
     set_security_string := λ _ _, answer false tt;
     set_application_uri := λ _ _ w, w;
     set_security_checks := λ _ _ w, w;
     client_connect := λ _, answer (refuse_connection f) tt;
     client_disconnect := λ _, answer false tt;
     create_subscription := λ _ _, answer false 1;
     get_node := λ _ nid, answer false nid;
     subscribe_data_change := λ _ node,
       answer (bool_decide (node ∈ bad_nodes f))
              (Z.of_nat (String.length node));
     get_value := λ node,
       answer (bool_decide (node ∈ unreadable_nodes f)) (reading node);
     unsubscribe := λ _ h, answer (bool_decide (h ∈ bad_handles f)) tt;
     subscription_delete := λ _, answer false tt;
     nodeid_to_string := λ node, node;
     io_fault := λ call w,
       (if bool_decide (call ∈ bad_io f) then Some "simulated failure"
        else None, w);
     generate_private_key := answer (bad_crypto f) [Byte.x01];
     private_bytes := λ k, answer false k;
     datetime_now_utc := tick;
     sign_certificate := λ k _ _ _, answer false (Byte.x02 :: k);
     public_bytes := λ c, answer false c |}.

Definition points (l : list (string * string * string))
    : list MonitoredPoint :=
  (λ p, {| node_id := p.1.1; node_name := p.1.2; node_unit := p.2 |}) <$> l.

(** A connector as [__init__] leaves it, with the given points and
    callbacks. *)
Definition connector (nodes : list MonitoredPoint) (callbacks : list SinkId)
    : @OpcUaConnector Z nat :=
  {| endpoint_url := "opc.tcp://plc:4840";
     application_uri := "urn:gateway:client";
     security_policy := "Basic256Sha256";
     security_mode := "SignAndEncrypt";
     nodes_to_monitor := nodes;
     client := None; subscription := None; handles := [];
     connected := false; latest_values := ∅;
     value_callbacks := callbacks |}.

Definition empty_disk : FileSystem :=
  {| cwd := "/opt/gateway"; dirs := {["/opt/gateway"]}; files := ∅ |}.

Definition state (c : @OpcUaConnector Z nat) : @State nat Z nat string :=
  {| self := c; disk := empty_disk; world := 0; trace := [] |}.

(** The three points of the scenario: A in C, B in %, C without unit. *)
Definition abc : list MonitoredPoint :=
  points [("ns=2;s=A", "A", "C"); ("ns=2;s=B", "B", "%");
          ("ns=2;s=C", "C", "")].

End Demo.

(** ** Observations on traces and states *)

Section Observations.

Context {W Value Time Node PrivateKey Certificate : Type}.
Local Abbreviation Env := (@Env W Value Time Node PrivateKey Certificate).
Local Abbreviation State := (@State W Value Time Node).
Local Abbreviation Event := (@Event Value Time Node).

(** The callback invocations of a trace, in order. *)
Definition delivery (ev : Event)
    : option (SinkId * string * Value * string * Time) :=
  match ev with
  | EvCallback k name value unit timestamp =>
      Some (k, name, value, unit, timestamp)
  | _ => None
  end.

Definition deliveries (tr : list Event)
    : list (SinkId * string * Value * string * Time) :=
  omap delivery tr.

(** What one callback received. *)
Definition deliveries_to (k : SinkId) (tr : list Event)
    : list (string * Value * string * Time) :=
  omap (λ d : SinkId * string * Value * string * Time,
          if decide (d.1.1.1.1 = k)
          then Some (d.1.1.1.2, d.1.1.2, d.1.2, d.2) else None)
       (deliveries tr).

(** The fan-out as the dispatcher is described: every callback in
    registration order; a raise is logged and the next callback runs. *)
Fixpoint fanout (E : Env) (callbacks : list SinkId) (name : string)
    (value : Value) (unit : string) (timestamp : Time) (w : W)
    : list Event * W :=
  match callbacks with
  | [] => ([], w)
  | k :: rest =>
      let '(r, w') := callback_call E k name value unit timestamp w in
      let '(evs, w'') := fanout E rest name value unit timestamp w' in
      (EvCallback k name value unit timestamp ::
         match r with
         | Normal _ => []
         | Raised e => [EvRaised e; EvLog ERROR (MsgErrorInCallback e)]
         end ++ evs, w'')
  end.

(** The environment in which callback [k] raises [e] at every call. *)
Definition with_raising_callback (k : SinkId) (e : Exn) (E : Env) : Env :=
  {| datetime_now := datetime_now E;
     isoformat := isoformat E;
     callback_call := λ k' name value unit timestamp w,
       if decide (k' = k) then (Raised e, w)
       else callback_call E k' name value unit timestamp w;
     Client_new := Client_new E;
     set_security_string := set_security_string E;
     set_application_uri := set_application_uri E;
     set_security_checks := set_security_checks E;
     client_connect := client_connect E;
     client_disconnect := client_disconnect E;
     create_subscription := create_subscription E;
     get_node := get_node E;
     subscribe_data_change := subscribe_data_change E;
     get_value := get_value E;
     unsubscribe := unsubscribe E;
     subscription_delete := subscription_delete E;
     nodeid_to_string := nodeid_to_string E;
     io_fault := io_fault E;
     generate_private_key := generate_private_key E;
     private_bytes := private_bytes E;
     datetime_now_utc := datetime_now_utc E;
     sign_certificate := sign_certificate E;
     public_bytes := public_bytes E |}.

End Observations.

(** * Properties *)

(** ** The method monad *)

Lemma for_each_app {St A} (l1 l2 : list A) (body : A → Py St unit) s :
  for_each (l1 ++ l2) body s =
  bind (for_each l1 body) (λ _, for_each l2 body) s.
Proof.
  revert s. induction l1 as [|x l1 IH]; intros s; simpl.
  - reflexivity.
  - unfold bind in *. destruct (body x s) as [[[]|e] s1]; [apply IH | reflexivity].
Qed.

Lemma deliveries_app {Value Time Node} (t1 t2 : list (@Event Value Time Node)) :
  deliveries (t1 ++ t2) = deliveries t1 ++ deliveries t2.
Proof. apply omap_app. Qed.

Lemma deliveries_to_app {Value Time Node} k
    (t1 t2 : list (@Event Value Time Node)) :
  deliveries_to k (t1 ++ t2) = deliveries_to k t1 ++ deliveries_to k t2.
Proof. unfold deliveries_to. by rewrite deliveries_app, omap_app. Qed.

(** ** The dispatcher *)

Section Dispatcher.

Context {W Value Time Node PrivateKey Certificate : Type}.
Variable E : @Env W Value Time Node PrivateKey Certificate.
Local Abbreviation State := (@State W Value Time Node).

(** The loop of [_notify_callbacks] is the fan-out: it returns normally
    whatever the callbacks do and touches nothing of the instance. *)
Lemma notify_loop_fanout callbacks name value unit timestamp (s : State) :
  for_each callbacks (λ callback,
    try_except
      (ext (EvCallback callback name value unit timestamp)
           (callback_call E callback name value unit timestamp))
      (λ e, log ERROR (MsgErrorInCallback e))) s =
  let '(evs, w) :=
    fanout E callbacks name value unit timestamp (world s) in
  (Normal tt, {| self := self s; disk := disk s; world := w;
                 trace := trace s ++ evs |}).
Proof.
  revert s. induction callbacks as [|k rest IH]; intros s; simpl.
  - unfold ret. destruct s; simpl. by rewrite app_nil_r.
  - unfold bind, try_except, ext at 1.
    destruct (callback_call E k name value unit timestamp (world s))
      as [[[]|e] w1] eqn:Hk; simpl.
    + rewrite IH; simpl.
      destruct (fanout E rest name value unit timestamp w1) as [evs w2].
      by rewrite <- app_assoc.
    + rewrite IH; simpl.
      destruct (fanout E rest name value unit timestamp w1) as [evs w2].
      by rewrite <- !app_assoc.
Qed.

Lemma notify_callbacks_fanout name value unit (s : State) :
  _notify_callbacks E name value unit s =
  let '(timestamp, w0) := datetime_now E (world s) in
  let '(evs, w) :=
    fanout E (value_callbacks (self s)) name value unit timestamp w0 in
  (Normal tt, {| self := self s; disk := disk s; world := w;
                 trace := trace s ++ evs |}).
Proof.
  unfold _notify_callbacks, bind, ext_total, get_self.
  destruct (datetime_now E (world s)) as [timestamp w0]; simpl.
  by rewrite notify_loop_fanout.
Qed.

Lemma fanout_deliveries callbacks name value unit timestamp (w : W) :
  deliveries (fanout E callbacks name value unit timestamp w).1 =
  (λ k, (k, name, value, unit, timestamp)) <$> callbacks.
Proof.
  revert w. induction callbacks as [|k rest IH]; intros w; simpl; [done|].
  destruct (callback_call E k name value unit timestamp w) as [r w1].
  specialize (IH w1).
  destruct (fanout E rest name value unit timestamp w1) as [evs w2].
  simpl in *. rewrite deliveries_app, IH.
  by destruct r.
Qed.

End Dispatcher.

(** C4.  [_notify_callbacks] invokes every registered callback in
    registration order with the same name, value, unit and timestamp; a
    callback that raises is followed by the error log entry and by the
    remaining callbacks; the call itself returns normally and leaves the
    instance and the disk as they were.  Making any callback raise at every
    call does not change what any callback receives. *)
Theorem notify_callbacks_isolates_sinks
    {W Value Time Node PrivateKey Certificate : Type}
    (E : @Env W Value Time Node PrivateKey Certificate)
    (name : string) (value : Value) (unit : string)
    (s : @State W Value Time Node) :
  let timestamp := (datetime_now E (world s)).1 in
  let run := fanout E (value_callbacks (self s)) name value unit timestamp
                    (datetime_now E (world s)).2 in
  _notify_callbacks E name value unit s =
    (Normal tt, {| self := self s; disk := disk s; world := run.2;
                   trace := trace s ++ run.1 |})
  ∧ deliveries run.1 =
      (λ k, (k, name, value, unit, timestamp)) <$> value_callbacks (self s)
  ∧ ∀ (k : SinkId) (e : Exn) (j : SinkId),
      deliveries_to j
        (trace (_notify_callbacks (with_raising_callback k e E)
                                  name value unit s).2) =
      deliveries_to j (trace (_notify_callbacks E name value unit s).2).
Proof.
  intros timestamp run. subst timestamp run.
  split; [|split].
  - rewrite notify_callbacks_fanout.
    destruct (datetime_now E (world s)) as [t w0]; simpl.
    by destruct (fanout E (value_callbacks (self s)) name value unit t w0).
  - apply fanout_deliveries.
  - intros k e j.
    rewrite !notify_callbacks_fanout. simpl.
    destruct (datetime_now E (world s)) as [t w0]; simpl.
    pose proof (fanout_deliveries (with_raising_callback k e E)
                  (value_callbacks (self s)) name value unit t w0) as H1.
    pose proof (fanout_deliveries E
                  (value_callbacks (self s)) name value unit t w0) as H2.
    destruct (fanout (with_raising_callback k e E) _ _ _ _ _ _) as [evs1 w1].
    destruct (fanout E _ _ _ _ _ _) as [evs2 w2].
    simpl in *. unfold deliveries_to.
    by rewrite !deliveries_app, H1, H2.
Qed.

(** ** Session teardown *)

Ltac py_unfold :=
  unfold the_client, the_subscription, log, get_self, set_self, ext,
    ext_total, emit_outcome, try_except, try_finally, bind, ret, raise, get,
    modify, on_self, on_disk, emit, with_world.

Tactic Notation "py_unfold" "in" hyp(H) :=
  unfold the_client, the_subscription, log, get_self, set_self, ext,
    ext_total, emit_outcome, try_except, try_finally, bind, ret, raise, get,
    modify, on_self, on_disk, emit, with_world in H.

(** A property kept by the body of a loop is kept by the loop, whether or
    not the loop runs to its end. *)
Lemma for_each_invariant {St A} (I : St → Prop) (l : list A)
    (body : A → Py St unit) :
  (∀ x s, I s → I (body x s).2) → ∀ s, I s → I (for_each l body s).2.
Proof.
  intros Hbody. induction l as [|x l IH]; intros s Hs; simpl; [done|].
  unfold bind. specialize (Hbody x s Hs).
  destruct (body x s) as [[[]|e] s1]; simpl in *; [by apply IH | done].
Qed.

Section Teardown.

Context {W Value Time Node PrivateKey Certificate : Type}.
Variable E : @Env W Value Time Node PrivateKey Certificate.
Local Abbreviation State := (@State W Value Time Node).

(** The unsubscribe loop changes neither the instance nor the disk,
    whether or not it runs to its end. *)
Lemma unsubscribe_loop_self (hs : list Handle) (s : State) :
  let body := λ handle,
    bind the_subscription (λ sub,
      ext (EvUnsubscribe sub handle) (unsubscribe E sub handle)) in
  self (for_each hs body s).2 = self s ∧ disk (for_each hs body s).2 = disk s.
Proof.
  intros body.
  apply (for_each_invariant (λ s', self s' = self s ∧ disk s' = disk s));
    [|done].
  intros h s1 [H1 H2]. subst body. py_unfold. simpl.
  destruct (subscription (self s1)) as [sub|]; simpl; [|done].
  by destruct (unsubscribe E sub h (world s1)) as [[[]|e] w].
Qed.

(** Fields [disconnect] never assigns. *)
Definition same_configuration (c c' : @OpcUaConnector Value Time) : Prop :=
  endpoint_url c' = endpoint_url c ∧
  application_uri c' = application_uri c ∧
  security_policy c' = security_policy c ∧
  security_mode c' = security_mode c ∧
  nodes_to_monitor c' = nodes_to_monitor c ∧
  latest_values c' = latest_values c ∧
  value_callbacks c' = value_callbacks c.

(** [disconnect] returns normally from every state.  Afterwards no client
    is held, and the connected flag is clear if a client was held before
    (otherwise it is as it was). *)
Lemma disconnect_clears_session (s : State) :
  ∃ s', disconnect E s = (Normal tt, s')
    ∧ client (self s') = None
    ∧ connected (self s') =
        (if client (self s) is Some _ then false else connected (self s))
    ∧ same_configuration (self s) (self s')
    ∧ disk s' = disk s
    ∧ (subscription (self s) = None →
       subscription (self s') = None ∧ handles (self s') = handles (self s)).
Proof.
  unfold disconnect.
  unfold bind at 1. unfold get_self at 1.
  set (cleanup := match subscription (self s) with
                  | Some _ => _ | None => _ end).
  assert (∃ s1, cleanup s = (Normal tt, s1)
            ∧ client (self s1) = client (self s)
            ∧ connected (self s1) = connected (self s)
            ∧ same_configuration (self s) (self s1)
            ∧ disk s1 = disk s
            ∧ (subscription (self s) = None →
               subscription (self s1) = None
               ∧ handles (self s1) = handles (self s))) as (s1 & Hc & H1 & H2 & H3 & H4 & H5).
  { subst cleanup. destruct (subscription (self s)) as [sub0|] eqn:Hsub.
    - unfold try_except, bind at 1.
      destruct (unsubscribe_loop_self (handles (self s)) s) as [Hself Hdisk].
      simpl in Hself, Hdisk.
      destruct (for_each (handles (self s)) _ s) as [[[]|e] s0]; simpl in *.
      + py_unfold. simpl. rewrite Hself, Hsub. simpl.
        destruct (subscription_delete E sub0 (world s0)) as [[[]|e] w];
          simpl; eexists; (split; [reflexivity|]); simpl;
          rewrite ?Hself, ?Hdisk; repeat split; done.
      + py_unfold. simpl. eexists; (split; [reflexivity|]); simpl.
        rewrite Hself, Hdisk. repeat split; done.
    - eexists; split; [reflexivity|]. repeat split; done. }
  unfold bind. rewrite Hc. unfold get_self at 1.
  destruct H3 as (?&?&?&?&?&?&?).
  destruct (client (self s1)) as [cl|] eqn:Hcl.
  - py_unfold. simpl. rewrite Hcl. simpl.
    destruct (client_disconnect E cl (world s1)) as [[[]|e] w]; simpl;
      eexists; (split; [reflexivity|]); simpl; rewrite <- H1;
      (repeat split; try done); by apply H5.
  - eexists; split; [reflexivity|]. rewrite <- H1.
    repeat split; try done; by apply H5.
Qed.

End Teardown.

(** An engine with a session, a subscription and two monitored items, in
    a world where unsubscribing the item with handle 5 raises. *)
Definition active_connector : @OpcUaConnector Z nat :=
  with_connected true
    (with_handles [5%Z; 7%Z]
       (with_subscription (Some 1) (with_client (Some 1)
          (Demo.connector Demo.abc [])))).

Definition unsubscribe_fails : Demo.Faults :=
  {| Demo.bad_nodes := []; Demo.unreadable_nodes := [];
     Demo.bad_handles := [5%Z]; Demo.bad_sinks := []; Demo.bad_io := [];
     Demo.refuse_connection := false; Demo.bad_crypto := false |}.

(** C2.  When [unsubscribe] raises for a monitored item, [disconnect]
    returns normally, closes the session and clears the client and the
    connected flag, but leaves the subscription handle and both
    monitored-item handles in place; the subscription is not deleted and the
    second item is not unsubscribed.  A second [disconnect] changes none of
    this. *)
Theorem disconnect_keeps_handles_when_unsubscribe_raises :
  let E := Demo.env unsubscribe_fails (λ _, 0%Z) in
  let r := disconnect E (Demo.state active_connector) in
  let r2 := disconnect E r.2 in
  r.1 = Normal tt
  ∧ client (self r.2) = None
  ∧ connected (self r.2) = false
  ∧ subscription (self r.2) = Some 1
  ∧ handles (self r.2) = [5%Z; 7%Z]
  ∧ trace r.2 =
      [EvUnsubscribe 1 5%Z; EvRaised "simulated failure";
       EvLog WARNING (MsgErrorCleaningUpSubscription "simulated failure");
       EvLog INFO MsgDisconnecting; EvClientDisconnect 1;
       EvLog INFO MsgDisconnectedSuccessfully]
  ∧ r2.1 = Normal tt
  ∧ subscription (self r2.2) = Some 1
  ∧ handles (self r2.2) = [5%Z; 7%Z].
Proof. vm_compute. repeat split; reflexivity. Qed.

(** ** Relations kept by method bodies *)

(** [keeps R m]: the state [m] ends in is [R]-related to the state it
    started in, whether [m] returns or raises. *)
Definition keeps {St A} (R : St → St → Prop) (m : Py St A) : Prop :=
  ∀ s, R s (m s).2.

Section Keeps.

Context {St : Type} (R : St → St → Prop) `{!Reflexive R, !Transitive R}.

Lemma keeps_ret {A} (a : A) : keeps R (ret a).
Proof. intros s. simpl. reflexivity. Qed.

Lemma keeps_raise {A} (e : Exn) : keeps R (@raise St A e).
Proof. intros s. simpl. reflexivity. Qed.

Lemma keeps_get : keeps R (@get St).
Proof. intros s. simpl. reflexivity. Qed.

Lemma keeps_bind {A B} (m : Py St A) (k : A → Py St B) :
  keeps R m → (∀ a, keeps R (k a)) → keeps R (bind m k).
Proof.
  intros Hm Hk s. unfold bind. specialize (Hm s).
  destruct (m s) as [[a|e] s1]; simpl in *; [|done].
  etrans; [exact Hm | apply Hk].
Qed.

Lemma keeps_try_except {A} (m : Py St A) (h : Exn → Py St A) :
  keeps R m → (∀ e, keeps R (h e)) → keeps R (try_except m h).
Proof.
  intros Hm Hh s. unfold try_except. specialize (Hm s).
  destruct (m s) as [[a|e] s1]; simpl in *; [done|].
  etrans; [exact Hm | apply Hh].
Qed.

Lemma keeps_try_finally {A} (m : Py St A) (f : Py St unit) :
  keeps R m → keeps R f → keeps R (try_finally m f).
Proof.
  intros Hm Hf s. unfold try_finally. specialize (Hm s).
  destruct (m s) as [r s1]. specialize (Hf s1).
  destruct (f s1) as [[[]|e] s2]; simpl in *; by etrans.
Qed.

Lemma keeps_for_each {A} (l : list A) (body : A → Py St unit) :
  (∀ x, keeps R (body x)) → keeps R (for_each l body).
Proof.
  intros Hbody. induction l as [|x l IH]; simpl.
  - apply keeps_ret.
  - apply keeps_bind; [apply Hbody | intros _; apply IH].
Qed.

End Keeps.

Section GatewayFrames.

Context {W Value Time Node PrivateKey Certificate : Type}.
Variable E : @Env W Value Time Node PrivateKey Certificate.
Local Abbreviation State := (@State W Value Time Node).
Local Abbreviation Event := (@Event Value Time Node).

(** The instance is as it was. *)
Definition same_self (s s' : State) : Prop := self s' = self s.

(** The trace grew by events that all satisfy [P]. *)
Definition grew_by (P : Event → Prop) (s s' : State) : Prop :=
  ∃ evs, trace s' = trace s ++ evs ∧ Forall P evs.

#[global] Instance same_self_refl : Reflexive same_self.
Proof. by intros s. Qed.
#[global] Instance same_self_trans : Transitive same_self.
Proof. unfold same_self. intros s1 s2 s3 H1 H2. congruence. Qed.

#[global] Instance grew_by_refl P : Reflexive (grew_by P).
Proof. intros s. exists []. by rewrite app_nil_r. Qed.
#[global] Instance grew_by_trans P : Transitive (grew_by P).
Proof.
  intros s1 s2 s3 (e1 & H1 & F1) (e2 & H2 & F2). exists (e1 ++ e2).
  rewrite H2, H1, app_assoc. split; [done | by apply Forall_app].
Qed.

Lemma same_self_ext {A} ev (f : W → Outcome A * W) : keeps same_self (ext ev f).
Proof. intros s. unfold ext. by destruct (f (world s)) as [[a|e] w]. Qed.

Lemma same_self_ext_total {A} (f : W → A * W) : keeps same_self (ext_total f).
Proof. intros s. unfold ext_total. by destruct (f (world s)) as [a w]. Qed.

Lemma same_self_log lvl msg : keeps same_self (log lvl msg).
Proof. by intros s. Qed.

Lemma same_self_on_disk f : keeps same_self (modify (on_disk f)).
Proof. by intros s. Qed.

Lemma same_self_get_self : keeps same_self get_self.
Proof. by intros s. Qed.

Lemma grew_by_ext {A} (P : Event → Prop) ev (f : W → Outcome A * W) :
  P ev → (∀ e, P (EvRaised e)) → keeps (grew_by P) (ext ev f).
Proof.
  intros Hev Hr s. unfold ext. destruct (f (world s)) as [[a|e] w]; simpl.
  - exists [ev]. split; [done | by constructor].
  - exists [ev; EvRaised e]. split; [simpl; by rewrite <- app_assoc|].
    by repeat constructor.
Qed.

Lemma grew_by_ext_total {A} (P : Event → Prop) (f : W → A * W) :
  keeps (grew_by P) (ext_total f).
Proof.
  intros s. unfold ext_total. destruct (f (world s)) as [a w]; simpl.
  exists []. by rewrite app_nil_r.
Qed.

Lemma grew_by_log (P : Event → Prop) lvl msg :
  P (EvLog lvl msg) → keeps (grew_by P) (log lvl msg).
Proof. intros H s. exists [EvLog lvl msg]. split; [done | by constructor]. Qed.

Lemma grew_by_on_self (P : Event → Prop) f : keeps (grew_by P) (set_self f).
Proof. intros s. exists []. simpl. by rewrite app_nil_r. Qed.

Lemma grew_by_on_disk (P : Event → Prop) f :
  keeps (grew_by P) (modify (on_disk f)).
Proof. intros s. exists []. simpl. by rewrite app_nil_r. Qed.

Lemma grew_by_get_self (P : Event → Prop) : keeps (grew_by P) get_self.
Proof. intros s. exists []. simpl. by rewrite app_nil_r. Qed.

End GatewayFrames.

(** Decomposing a method body along its structure. *)
Ltac keeps_step :=
  first
    [ apply keeps_bind; [apply _ | | intros ?]
    | apply keeps_try_except; [apply _ | | intros ?]
    | apply keeps_try_finally; [apply _ | | ]
    | apply keeps_for_each; [apply _ | apply _ | intros ?]
    | apply keeps_ret; apply _
    | apply keeps_raise; apply _
    | apply keeps_get; apply _
    | match goal with
      | |- keeps _ (if ?b then _ else _) => destruct b
      | |- keeps _ (match ?x with _ => _ end) => destruct x
      | |- keeps _ (let '(_, _) := ?p in _) => destruct p
      end
    | progress cbv beta zeta ].

Section Provisioning.

Context {W Value Time Node PrivateKey Certificate : Type}.
Variable E : @Env W Value Time Node PrivateKey Certificate.
Local Abbreviation State := (@State W Value Time Node).
Local Abbreviation Event := (@Event Value Time Node).

Ltac same_self_tac :=
  repeat first
    [ apply same_self_ext | apply same_self_ext_total | apply same_self_log
    | apply same_self_on_disk | apply same_self_get_self
    | keeps_step ].

Lemma os_call_same_self call : keeps same_self (os_call E call).
Proof. apply same_self_ext. Qed.

(** Provisioning never assigns a field of the instance. *)
Lemma generate_certificates_same_self :
  keeps same_self (generate_certificates E).
Proof.
  unfold generate_certificates, os_getcwd, os_path_exists, os_makedirs,
    open_wb, file_write, os_call.
  same_self_tac.
Qed.

(** Opening a session: constructing the client or connecting it. *)
Definition connection_attempt (ev : Event) : Prop :=
  match ev with
  | EvClient _ | EvClientConnect _ => True
  | _ => False
  end.

Ltac grew_by_tac :=
  repeat first
    [ apply grew_by_ext; [simpl; tauto | simpl; tauto]
    | apply grew_by_ext_total
    | apply grew_by_log; simpl; tauto
    | apply grew_by_on_self | apply grew_by_on_disk | apply grew_by_get_self
    | keeps_step ].

Lemma generate_certificates_no_attempt :
  keeps (grew_by (λ ev, ¬ connection_attempt ev)) (generate_certificates E).
Proof.
  unfold generate_certificates, os_getcwd, os_path_exists, os_makedirs,
    open_wb, file_write, os_call.
  grew_by_tac.
Qed.

Lemma disconnect_no_attempt :
  keeps (grew_by (λ ev, ¬ connection_attempt ev)) (disconnect E).
Proof.
  unfold disconnect, the_subscription, the_client. grew_by_tac.
Qed.

End Provisioning.

(** ** Opening a session *)

Section Connect.

Context {W Value Time Node PrivateKey Certificate : Type}.
Variable E : @Env W Value Time Node PrivateKey Certificate.
Local Abbreviation State := (@State W Value Time Node).
Local Abbreviation Event := (@Event Value Time Node).

(** The connected flag is set only while a client is held. *)
Definition session_consistent (c : @OpcUaConnector Value Time) : Prop :=
  connected c = true → is_Some (client c).

(** The client and the connected flag are as they were. *)
Definition same_session (s s' : State) : Prop :=
  client (self s') = client (self s) ∧ connected (self s') = connected (self s).

#[global] Instance same_session_refl : Reflexive same_session.
Proof. by intros s. Qed.
#[global] Instance same_session_trans : Transitive same_session.
Proof. unfold same_session. intros s1 s2 s3 [] []. split; congruence. Qed.

Lemma same_session_of_same_self {A} (m : Py State A) :
  keeps same_self m → keeps same_session m.
Proof. intros H s. specialize (H s). unfold same_self in H. red. by rewrite H. Qed.

Lemma same_session_set_self f :
  (∀ c, client (f c) = client c ∧ connected (f c) = connected c) →
  keeps same_session (set_self f).
Proof. intros H s. apply H. Qed.

(** The methods an owner of the connector can call. *)
Inductive Method : Type :=
| CallConnect
| CallDisconnect
| CallSubscribeToNodes
| CallAddValueCallback (callback : SinkId)
| CallGenerateCertificates
| CallDatachangeNotification (node : Node) (val : Value).

Definition call (m : Method) (s : State) : State :=
  match m with
  | CallConnect => (connect E s).2
  | CallDisconnect => (disconnect E s).2
  | CallSubscribeToNodes => (subscribe_to_nodes E s).2
  | CallAddValueCallback callback => (add_value_callback callback s).2
  | CallGenerateCertificates => (generate_certificates E s).2
  | CallDatachangeNotification node val =>
      (datachange_notification E node val s).2
  end.

(** The states of a connector built by [__init__] and then used through
    its methods, while the disk and the world move on between the calls. *)
Inductive reachable : State → Prop :=
| reachable_init config c d w :
    OpcUaConnector_init config = Some (Normal c) →
    reachable {| self := c; disk := d; world := w; trace := [] |}
| reachable_call m s :
    reachable s → reachable (call m s)
| reachable_moved s d w :
    reachable s →
    reachable {| self := self s; disk := d; world := w; trace := trace s |}.

Ltac same_session_tac :=
  repeat first
    [ apply same_session_of_same_self;
      first [ apply same_self_ext | apply same_self_ext_total
            | apply same_self_log | apply same_self_get_self ]
    | apply same_session_set_self; by intros []
    | keeps_step ].

Lemma notify_callbacks_same_session name value unit :
  keeps same_session (_notify_callbacks E name value unit).
Proof. unfold _notify_callbacks. same_session_tac. Qed.

Lemma store_latest_same_session name value unit :
  keeps same_session (store_latest E name value unit).
Proof. unfold store_latest. same_session_tac. Qed.

Lemma datachange_notification_same_session node val :
  keeps same_session (datachange_notification E node val).
Proof.
  unfold datachange_notification. same_session_tac.
Qed.

Lemma subscribe_node_same_session node_info :
  keeps same_session (subscribe_node E node_info).
Proof.
  unfold subscribe_node, the_client, the_subscription. same_session_tac.
Qed.

Lemma subscribe_to_nodes_same_session :
  keeps same_session (subscribe_to_nodes E).
Proof.
  unfold subscribe_to_nodes, the_client. same_session_tac.
Qed.

(** The [except] branch of [connect]. *)
Lemma connect_handler (e : Exn) (s : State) :
  session_consistent (self s) →
  ∃ s', bind (log ERROR (MsgErrorConnecting e))
             (λ _, bind (disconnect E) (λ _, ret false)) s = (Normal false, s')
    ∧ client (self s') = None ∧ connected (self s') = false.
Proof.
  intros Hc. unfold bind at 1. unfold log at 1, modify.
  set (s0 := emit _ s).
  destruct (disconnect_clears_session E s0) as (s' & Hd & H1 & H2 & _).
  unfold bind. rewrite Hd. exists s'. split; [done|]. split; [done|].
  rewrite H2. subst s0. simpl.
  destruct (client (self s)) eqn:Hcl; [done|].
  destruct (connected (self s)) eqn:Hco; [|done].
  destruct (Hc Hco) as [? ?]. congruence.
Qed.

(** [connect] returns [True] or [False] and never raises.  After [False]
    no client is held and the connected flag is clear; after [True] a
    client is held and the flag is set. *)
Lemma connect_outcome (s : State) :
  session_consistent (self s) →
  ∃ b s', connect E s = (Normal b, s')
    ∧ if b then is_Some (client (self s')) ∧ connected (self s') = true
      else client (self s') = None ∧ connected (self s') = false.
Proof.
  intros Hc. unfold connect.
  match goal with |- context [try_except _ ?h] => set (handler := h) end.
  assert (∀ e s0, session_consistent (self s0) →
            ∃ s', handler e s0 = (Normal false, s')
              ∧ client (self s') = None ∧ connected (self s') = false)
    as Hhandler by (intros; by apply connect_handler).
  clearbody handler.
  unfold try_except. unfold bind at 1.
  pose proof (generate_certificates_same_self E s) as Hself. red in Hself.
  destruct (generate_certificates E s) as [[[cert_path key_path]|e] s1];
    simpl in Hself.
  2:{ destruct (Hhandler e s1) as (s' & H & ?); [by rewrite Hself|].
      exists false, s'. by rewrite H. }
  py_unfold. simpl.
  destruct (Client_new E (endpoint_url (self s1)) (world s1))
    as [[cl|e] w1]; simpl.
  2:{ match goal with |- context [handler e ?s0] =>
        destruct (Hhandler e s0) as (s' & H & ?) end;
        [simpl; by rewrite Hself|].
      exists false, s'. by rewrite H. }
  destruct (set_security_string E cl _ w1) as [[[]|e] w2]; simpl.
  2:{ match goal with |- context [handler e ?s0] =>
        destruct (Hhandler e s0) as (s' & H & ?) end;
        [intros _; simpl; eauto|].
      exists false, s'. by rewrite H. }
  destruct (client_connect E cl _) as [[[]|e] w3]; simpl.
  2:{ match goal with |- context [handler e ?s0] =>
        destruct (Hhandler e s0) as (s' & H & ?) end;
        [intros _; simpl; eauto|].
      exists false, s'. by rewrite H. }
  eexists true, _. split; [reflexivity|]. simpl. eauto.
Qed.

End Connect.

(** The configuration file of the scenario. *)
Definition demo_config : gmap string (gmap string string) :=
  list_to_map
    [("OPCUA", list_to_map
        [("server_url", "opc.tcp://plc:4840");
         ("application_uri", "urn:gateway:client");
         ("security_policy", "Basic256Sha256");
         ("security_mode", "SignAndEncrypt")]);
     ("MONITORING", list_to_map
        [("node1_id", "ns=2;s=A"); ("node1_name", "A"); ("node1_unit", "C");
         ("node2_id", "ns=2;s=B"); ("node2_name", "B"); ("node2_unit", "%");
         ("node3_id", "ns=2;s=C"); ("node3_name", "C")])].

Example demo_config_init :
  @OpcUaConnector_init Z nat demo_config =
  Some (Normal (Demo.connector Demo.abc [])).
Proof. vm_compute. reflexivity. Qed.

Definition connection_refused : Demo.Faults :=
  {| Demo.bad_nodes := []; Demo.unreadable_nodes := [];
     Demo.bad_handles := []; Demo.bad_sinks := []; Demo.bad_io := [];
     Demo.refuse_connection := true; Demo.bad_crypto := false |}.

Section ConnectFailure.

Context {W Value Time Node PrivateKey Certificate : Type}.
Variable E : @Env W Value Time Node PrivateKey Certificate.
Local Abbreviation State := (@State W Value Time Node).

Lemma init_session_consistent config (c : @OpcUaConnector Value Time) :
  OpcUaConnector_init config = Some (Normal c) → session_consistent c.
Proof.
  unfold OpcUaConnector_init. intros H.
  repeat match type of H with
         | match ?x with _ => _ end = _ => destruct x; try discriminate
         end.
  injection H as <-. by intros ?.
Qed.

Lemma reachable_session_consistent (s : State) :
  reachable E s → session_consistent (self s).
Proof.
  induction 1 as [config c d w Hinit|m s Hs IH|s d w Hs IH]; simpl.
  - by eapply init_session_consistent.
  - destruct m; simpl.
    + destruct (connect_outcome E s IH) as (b & s' & -> & H). simpl.
      destruct b; intros ?; [tauto | destruct H; congruence].
    + destruct (disconnect_clears_session E s) as (s' & -> & H1 & H2 & _).
      simpl. intros Hc. rewrite H2 in Hc.
      destruct (client (self s)) eqn:Hcl; [done|].
      destruct (IH Hc). congruence.
    + destruct (subscribe_to_nodes_same_session E s) as [H1 H2].
      unfold session_consistent. by rewrite H1, H2.
    + done.
    + pose proof (generate_certificates_same_self E s) as H. red in H.
      by rewrite H.
    + destruct (datachange_notification_same_session E node val s) as [H1 H2].
      unfold session_consistent. by rewrite H1, H2.
  - done.
Qed.

End ConnectFailure.

(** C7.  From every state the connector can be in, a [connect] that does
    not return [True] returns [False] (it never raises), and afterwards the
    client is [None] and the connected flag is [False], whichever step
    failed: provisioning, constructing the client, the security settings or
    establishing the session. *)
Theorem connect_failure_leaves_no_session
    {W Value Time Node PrivateKey Certificate : Type}
    (E : @Env W Value Time Node PrivateKey Certificate)
    (s : @State W Value Time Node) :
  reachable E s →
  (connect E s).1 ≠ Normal true →
  (connect E s).1 = Normal false
  ∧ client (self (connect E s).2) = None
  ∧ connected (self (connect E s).2) = false.
Proof.
  intros Hr Hne.
  destruct (connect_outcome E s (reachable_session_consistent E s Hr))
    as (b & s' & Heq & H).
  rewrite Heq in *. simpl in *. by destruct b.
Qed.

Lemma connect_failure_leaves_no_session_witness :
  let E := Demo.env connection_refused (λ _, 0%Z) in
  let s := Demo.state (Demo.connector Demo.abc []) in
  (connect E s).1 = Normal false
  ∧ client (self (connect E s).2) = None
  ∧ connected (self (connect E s).2) = false.
Proof.
  apply connect_failure_leaves_no_session.
  - apply reachable_init with (config := demo_config).
    vm_compute. reflexivity.
  - vm_compute. discriminate.
Defined.

(** ** Failures of provisioning *)

Section ProvisioningFailure.

Context {W Value Time Node PrivateKey Certificate : Type}.
Variable E : @Env W Value Time Node PrivateKey Certificate.
Local Abbreviation State := (@State W Value Time Node).
Local Abbreviation Event := (@Event Value Time Node).

Definition raised_event (ev : Event) : Prop :=
  match ev with
  | EvRaised _ => True
  | _ => False
  end.

(** [propagates m]: [m] has no handler of its own.  It raises exactly when
    one of its outgoing calls raised, that call is its last, and it raises
    what the call raised. *)
Definition propagates {A} (m : Py State A) : Prop :=
  ∀ s, ∃ evs, trace (m s).2 = trace s ++ evs ∧
    match (m s).1 with
    | Normal _ => Forall (λ ev, ¬ raised_event ev) evs
    | Raised e =>
        ∃ evs0, evs = evs0 ++ [EvRaised e]
                ∧ Forall (λ ev, ¬ raised_event ev) evs0
    end.

Lemma propagates_ret {A} (a : A) : propagates (ret a).
Proof. intros s. exists []. simpl. by rewrite app_nil_r. Qed.

Lemma propagates_bind {A B} (m : Py State A) (k : A → Py State B) :
  propagates m → (∀ a, propagates (k a)) → propagates (bind m k).
Proof.
  intros Hm Hk s. unfold bind. destruct (Hm s) as (e1 & H1 & F1).
  destruct (m s) as [[a|e] s1]; simpl in *.
  - destruct (Hk a s1) as (e2 & H2 & F2). exists (e1 ++ e2).
    rewrite H2, H1, app_assoc. split; [done|].
    destruct (k a s1).1.
    + by apply Forall_app.
    + destruct F2 as (evs0 & -> & F2). exists (e1 ++ evs0).
      rewrite app_assoc. split; [done | by apply Forall_app].
  - by exists e1.
Qed.

Lemma propagates_ext {A} ev (f : W → Outcome A * W) :
  ¬ raised_event ev → propagates (ext ev f).
Proof.
  intros Hev s. unfold ext. destruct (f (world s)) as [[a|e] w]; simpl.
  - exists [ev]. split; [done | by constructor].
  - exists [ev; EvRaised e]. split; [by rewrite <- app_assoc|].
    exists [ev]. split; [done | by constructor].
Qed.

Lemma propagates_ext_total {A} (f : W → A * W) : propagates (ext_total f).
Proof.
  intros s. unfold ext_total. destruct (f (world s)) as [a w]; simpl.
  exists []. by rewrite app_nil_r.
Qed.

Lemma propagates_log lvl msg : propagates (log lvl msg).
Proof.
  intros s. exists [EvLog lvl msg]. split; [done|]. simpl.
  constructor; [simpl; tauto | constructor].
Qed.

Lemma propagates_on_disk f : propagates (modify (on_disk f)).
Proof. intros s. exists []. simpl. by rewrite app_nil_r. Qed.

Lemma propagates_get : propagates get.
Proof. intros s. exists []. simpl. by rewrite app_nil_r. Qed.

Lemma propagates_get_self : propagates get_self.
Proof. intros s. exists []. simpl. by rewrite app_nil_r. Qed.

Ltac propagates_tac :=
  repeat first
    [ apply propagates_ext; simpl; tauto
    | apply propagates_ext_total | apply propagates_log
    | apply propagates_on_disk | apply propagates_get
    | apply propagates_get_self | apply propagates_ret
    | apply propagates_bind; [|intros ?]
    | match goal with
      | |- propagates (if ?b then _ else _) => destruct b
      | |- propagates (match ?x with _ => _ end) => destruct x
      end
    | progress cbv beta zeta ].

(** A body without handler under [except Exception as e: log; raise]:
    the call raises exactly when an outgoing call raised, and raises the
    same exception. *)
Lemma reraise_propagates {A} (body : Py State A) msg (s : State) :
  propagates body →
  let r := try_except body (λ e, bind (log ERROR (msg e)) (λ _, raise e)) s in
  ∃ evs, trace r.2 = trace s ++ evs ∧ ∀ e, EvRaised e ∈ evs ↔ r.1 = Raised e.
Proof.
  intros Hb. unfold try_except. destruct (Hb s) as (evs & Ht & Hr).
  destruct (body s) as [[a|e0] s1]; simpl in *.
  - exists evs. split; [done|]. intros e. split; [|done].
    intros Hin. rewrite Forall_forall in Hr. by destruct (Hr _ Hin).
  - destruct Hr as (evs0 & -> & F).
    exists ((evs0 ++ [EvRaised e0]) ++ [EvLog ERROR (msg e0)]).
    split; [by rewrite Ht, !app_assoc|]. intros e.
    rewrite !elem_of_app, !list_elem_of_singleton. split.
    + intros [[Hin|[= ->]]|?]; [|done..].
      rewrite Forall_forall in F. by destruct (F _ Hin).
    + intros [= ->]. auto.
Qed.

Lemma generate_certificates_propagates (s : State) :
  let r := generate_certificates E s in
  ∃ evs, trace r.2 = trace s ++ evs ∧ ∀ e, EvRaised e ∈ evs ↔ r.1 = Raised e.
Proof.
  unfold generate_certificates. apply reraise_propagates.
  unfold os_getcwd, os_path_exists, os_makedirs, open_wb, file_write, os_call.
  propagates_tac.
Qed.

(** When provisioning raises, [connect] goes to its handler at once. *)
Lemma connect_after_failed_provisioning (s : State) e :
  (generate_certificates E s).1 = Raised e →
  (connect E s).1 = Normal false
  ∧ grew_by (λ ev, ¬ connection_attempt ev) s (connect E s).2.
Proof.
  intros Hg.
  cut (∃ s', connect E s = (Normal false, s')
             ∧ grew_by (λ ev, ¬ connection_attempt ev) s s').
  { intros (s' & -> & H). done. }
  unfold connect, try_except. unfold bind at 1.
  pose proof (generate_certificates_no_attempt E s) as Hno.
  destruct (generate_certificates E s) as [[p|e0] s1]; simpl in *; [done|].
  unfold bind at 1. unfold log at 1, modify.
  set (s0 := emit _ s1).
  destruct (disconnect_clears_session E s0) as (s' & Hd & _).
  pose proof (disconnect_no_attempt E s0) as Hno'.
  unfold bind. rewrite Hd in *. simpl in *. exists s'. split; [done|].
  etrans; [exact Hno|]. etrans; [|exact Hno'].
  exists [EvLog ERROR (MsgErrorConnecting e0)]. split; [done|].
  constructor; [simpl; tauto | constructor].
Qed.

End ProvisioningFailure.

(** C6.  [generate_certificates] raises exactly when one of its calls to
    the operating system or to the cryptography library raised, and it
    raises that exception to its caller.  When it does, [connect] returns
    [False] without constructing a client or attempting a connection. *)
Theorem provisioning_failure_is_fatal
    {W Value Time Node PrivateKey Certificate : Type}
    (E : @Env W Value Time Node PrivateKey Certificate)
    (s : @State W Value Time Node) :
  (∃ evs, trace (generate_certificates E s).2 = trace s ++ evs
      ∧ ∀ e, EvRaised e ∈ evs ↔ (generate_certificates E s).1 = Raised e)
  ∧ ∀ e, (generate_certificates E s).1 = Raised e →
      (connect E s).1 = Normal false
      ∧ ∃ evs, trace (connect E s).2 = trace s ++ evs
          ∧ Forall (λ ev, ¬ connection_attempt ev) evs.
Proof.
  split.
  - apply generate_certificates_propagates.
  - intros e He. by apply connect_after_failed_provisioning in He.
Qed.

Definition disk_is_read_only : Demo.Faults :=
  {| Demo.bad_nodes := []; Demo.unreadable_nodes := [];
     Demo.bad_handles := []; Demo.bad_sinks := [];
     Demo.bad_io := [IoMakedirs "/opt/gateway/certificates"];
     Demo.refuse_connection := false; Demo.bad_crypto := false |}.

Example provisioning_failure_on_read_only_disk :
  let E := Demo.env disk_is_read_only (λ _, 0%Z) in
  let s := Demo.state (Demo.connector Demo.abc []) in
  (generate_certificates E s).1 = Raised "simulated failure"
  ∧ (connect E s).1 = Normal false
  ∧ trace (connect E s).2 =
      [EvLog INFO MsgGeneratingCertificates; EvIo IoGetcwd;
       EvIo (IoMakedirs "/opt/gateway/certificates");
       EvRaised "simulated failure";
       EvLog ERROR (MsgErrorGeneratingCertificates "simulated failure");
       EvLog ERROR (MsgErrorConnecting "simulated failure")].
Proof. vm_compute. repeat split; reflexivity. Qed.

(** ** Paths and the disk *)

Lemma append_nil (b : string) : "" +:+ b = b.
Proof. reflexivity. Qed.

Lemma append_cons (x : ascii) (a b : string) :
  String x a +:+ b = String x (a +:+ b).
Proof. reflexivity. Qed.

Lemma string_append_assoc (a b c : string) : (a +:+ b) +:+ c = a +:+ b +:+ c.
Proof.
  induction a as [|x a IH]; rewrite ?append_nil, ?append_cons; [done|].
  by f_equal.
Qed.

Lemma prefix_empty (q : string) : String.prefix "" q = true.
Proof. by destruct q. Qed.

Lemma prefix_append (a b : string) : String.prefix a (a +:+ b) = true.
Proof.
  induction a as [|x a IH]; rewrite ?append_nil, ?append_cons;
    [apply prefix_empty|].
  simpl. by destruct (ascii_dec x x).
Qed.

Lemma prefix_append_l (a b q : string) :
  String.prefix (a +:+ b) q = true → String.prefix a q = true.
Proof.
  revert q. induction a as [|x a IH]; intros q;
    rewrite ?append_nil, ?append_cons.
  - intros _. apply prefix_empty.
  - destruct q as [|y q]; [done|]. simpl.
    destruct (ascii_dec x y); [apply IH | done].
Qed.

Lemma append_nonempty (a b : string) : b ≠ "" → a +:+ b ≠ "".
Proof. intros Hb. by destruct a; rewrite ?append_nil, ?append_cons. Qed.

Lemma endswith_sep_append (a b : string) :
  b ≠ "" → endswith_sep (a +:+ b) = endswith_sep b.
Proof.
  intros Hb. induction a as [|x a IH]; rewrite ?append_nil, ?append_cons;
    [done|].
  rewrite <- IH. simpl. destruct (a +:+ b) eqn:Hab; [|done].
  by apply append_nonempty in Hab.
Qed.

(** A relative name below a directory that is not the root. *)
Lemma path_join_child (dir name : string) :
  dir ≠ "" → endswith_sep dir = false → String.prefix "/" name = false →
  path_join dir name = dir +:+ "/" +:+ name.
Proof.
  intros H1 H2 H3. unfold path_join. rewrite H3, H2.
  by rewrite bool_decide_eq_false_2.
Qed.

(** The certificate directory neither is empty nor ends in a separator,
    so the two files are its children. *)
Lemma cert_dir_shape (here : string) :
  let cert_dir := path_join here "certificates" in
  cert_dir ≠ "" ∧ endswith_sep cert_dir = false.
Proof.
  simpl. unfold path_join.
  change (String.prefix "/" "certificates") with false. cbv iota.
  destruct (bool_decide (here = "") || endswith_sep here).
  - split; [by apply append_nonempty|].
    by rewrite endswith_sep_append.
  - split; [by apply append_nonempty|].
    by rewrite endswith_sep_append.
Qed.

(** Something that exists below a directory makes the directory exist. *)
Lemma path_exists_parent (dir name : string) (d : FileSystem) :
  path_exists (dir +:+ "/" +:+ name) d = true → path_exists dir d = true.
Proof.
  unfold path_exists. intros H.
  apply orb_true_iff. right. apply existsb_exists.
  apply orb_true_iff in H as [H|H]; [apply orb_true_iff in H as [H|H]|].
  - apply bool_decide_eq_true in H.
    exists (dir +:+ "/" +:+ name). split.
    + apply in_app_iff. left. apply list_elem_of_In. by apply elem_of_elements.
    + rewrite <- string_append_assoc. apply prefix_append.
  - apply bool_decide_eq_true in H. destruct H as [data H].
    exists (dir +:+ "/" +:+ name). split.
    + apply in_app_iff. right. apply list_elem_of_In.
      apply list_elem_of_fmap. exists (dir +:+ "/" +:+ name, data).
      split; [done|]. by apply elem_of_map_to_list.
    + rewrite <- string_append_assoc. apply prefix_append.
  - apply existsb_exists in H as (q & Hq & Hp). exists q. split; [done|].
    apply prefix_append_l with (b := name +:+ "/").
    by rewrite !string_append_assoc in *.
Qed.

Lemma path_exists_of_file (path : string) (d : FileSystem) :
  is_Some (files d !! path) → path_exists path d = true.
Proof.
  intros H. unfold path_exists. rewrite (bool_decide_eq_true_2 _ H).
  by rewrite orb_true_r.
Qed.

Lemma file_written (path : string) (data : list Byte.byte) (d : FileSystem) :
  is_Some (files (write_file path data d) !! path).
Proof. unfold write_file. simpl. rewrite lookup_insert_eq. by eexists. Qed.

Lemma file_stays (path other : string) (data : list Byte.byte)
    (d : FileSystem) :
  is_Some (files d !! path) →
  is_Some (files (write_file other data d) !! path).
Proof.
  intros H. unfold write_file. simpl. rewrite lookup_insert.
  by case_decide.
Qed.

(** ** Provisioning twice *)

#[local] Arguments path_join : simpl never.
#[local] Arguments path_exists : simpl never.

Section ProvisioningTwice.

Context {W Value Time Node PrivateKey Certificate : Type}.
Variable E : @Env W Value Time Node PrivateKey Certificate.
Local Abbreviation State := (@State W Value Time Node).

(** The two paths [generate_certificates] computes. *)
Definition cert_dir_of (d : FileSystem) : string :=
  path_join (cwd d) "certificates".
Definition cert_path_of (d : FileSystem) : string :=
  path_join (cert_dir_of d) "certificate.der".
Definition private_key_path_of (d : FileSystem) : string :=
  path_join (cert_dir_of d) "private_key.pem".

Lemma cert_path_child (d : FileSystem) :
  cert_path_of d = cert_dir_of d +:+ "/" +:+ "certificate.der".
Proof.
  destruct (cert_dir_shape (cwd d)) as [H1 H2]. by apply path_join_child.
Qed.

Lemma private_key_path_child (d : FileSystem) :
  private_key_path_of d = cert_dir_of d +:+ "/" +:+ "private_key.pem".
Proof.
  destruct (cert_dir_shape (cwd d)) as [H1 H2]. by apply path_join_child.
Qed.

(** With both files on the disk the call only reads: it returns the two
    paths, writes nothing and generates nothing. *)
Lemma generate_certificates_existing (s : State) :
  (io_fault E IoGetcwd (world s)).1 = None →
  path_exists (cert_path_of (disk s)) (disk s) = true →
  path_exists (private_key_path_of (disk s)) (disk s) = true →
  generate_certificates E s =
    (Normal (cert_path_of (disk s), private_key_path_of (disk s)),
     {| self := self s; disk := disk s;
        world := (io_fault E IoGetcwd (world s)).2;
        trace := trace s ++
          [EvLog INFO MsgGeneratingCertificates; EvIo IoGetcwd;
           EvLog INFO (MsgUsingExistingCertificates (cert_dir_of (disk s)))] |}).
Proof.
  intros Hio Hcert Hkey.
  assert (path_exists (cert_dir_of (disk s)) (disk s) = true) as Hdir.
  { rewrite cert_path_child in Hcert. by apply path_exists_parent in Hcert. }
  unfold cert_path_of, private_key_path_of, cert_dir_of in *.
  unfold generate_certificates, os_getcwd, os_path_exists, os_call.
  py_unfold. simpl.
  destruct (io_fault E IoGetcwd (world s)) as [r w1]. simpl in Hio. subst r.
  simpl. rewrite Hdir. simpl. rewrite Hcert. simpl. rewrite Hkey. simpl.
  by rewrite <- !app_assoc.
Qed.

(** A call that returns has returned the two paths, has left the working
    directory alone, and leaves both files on the disk. *)
Lemma generate_certificates_success (s s1 : State) (p : string * string) :
  generate_certificates E s = (Normal p, s1) →
  p = (cert_path_of (disk s), private_key_path_of (disk s))
  ∧ cwd (disk s1) = cwd (disk s)
  ∧ path_exists (cert_path_of (disk s)) (disk s1) = true
  ∧ path_exists (private_key_path_of (disk s)) (disk s1) = true.
Proof.
  unfold cert_path_of, private_key_path_of, cert_dir_of.
  unfold generate_certificates, os_getcwd, os_path_exists, os_makedirs,
    open_wb, file_write, os_call.
  py_unfold. simpl. intros H.
  repeat match type of H with
         | context [io_fault E ?c ?w] =>
             destruct (io_fault E c w) as [[?|] ?];
             simpl in H; try discriminate
         | context [generate_private_key E ?w] =>
             destruct (generate_private_key E w) as [[?|?] ?];
             simpl in H; try discriminate
         | context [private_bytes E ?k ?w] =>
             destruct (private_bytes E k w) as [[?|?] ?];
             simpl in H; try discriminate
         | context [datetime_now_utc E ?w] =>
             destruct (datetime_now_utc E w) as [? ?]; simpl in H
         | context [sign_certificate E ?k ?u ?t ?n ?w] =>
             destruct (sign_certificate E k u t n w) as [[?|?] ?];
             simpl in H; try discriminate
         | context [public_bytes E ?c ?w] =>
             destruct (public_bytes E c w) as [[?|?] ?];
             simpl in H; try discriminate
         | context [path_exists ?p ?d] =>
             destruct (path_exists p d) eqn:?; simpl in H
         end.
  all: injection H as <- <-; simpl.
  all: repeat split; try done.
  all: apply path_exists_of_file;
       first [ apply file_written
             | do 2 apply file_stays; apply file_written ].

Qed.

End ProvisioningTwice.

(** C5.  When the working directory can be read and both the certificate
    file and the private-key file exist, [generate_certificates] returns
    exactly their two paths, leaves the instance and the disk as they were,
    and makes no call other than reading the working directory: no key is
    generated and no file is opened or written.  In particular a call made
    on the disk that an earlier successful call left behind returns the
    paths of that call and leaves the disk unchanged. *)
Theorem provisioning_is_idempotent
    {W Value Time Node PrivateKey Certificate : Type}
    (E : @Env W Value Time Node PrivateKey Certificate)
    (s : @State W Value Time Node) :
  (io_fault E IoGetcwd (world s)).1 = None →
  let unchanged :=
    {| self := self s; disk := disk s;
       world := (io_fault E IoGetcwd (world s)).2;
       trace := trace s ++
         [EvLog INFO MsgGeneratingCertificates; EvIo IoGetcwd;
          EvLog INFO (MsgUsingExistingCertificates (cert_dir_of (disk s)))] |} in
  (path_exists (cert_path_of (disk s)) (disk s) = true →
   path_exists (private_key_path_of (disk s)) (disk s) = true →
   generate_certificates E s =
     (Normal (cert_path_of (disk s), private_key_path_of (disk s)),
      unchanged))
  ∧ (∀ (s0 : @State W Value Time Node) (p : string * string),
       (generate_certificates E s0).1 = Normal p →
       disk s = disk (generate_certificates E s0).2 →
       generate_certificates E s = (Normal p, unchanged)).
Proof.
  intros Hio unchanged. split.
  - intros Hc Hk. by apply generate_certificates_existing.
  - intros s0 p Hp Hd.
    destruct (generate_certificates E s0) as [r s1] eqn:Hfirst.
    simpl in *. subst r.
    apply generate_certificates_success in Hfirst as (-> & Hcwd & Hc & Hk).
    assert (cert_dir_of (disk s0) = cert_dir_of (disk s)) as Hdir
      by (unfold cert_dir_of; by rewrite Hd, Hcwd).
    unfold cert_path_of, private_key_path_of in *. rewrite Hdir in *.
    rewrite <- Hd in Hc, Hk. by apply generate_certificates_existing.
Qed.

(** A disk on which both files are already there. *)
Definition provisioned_disk : FileSystem :=
  {| cwd := "/opt/gateway";
     dirs := {["/opt/gateway"]} ∪ {["/opt/gateway/certificates"]};
     files :=
       <["/opt/gateway/certificates/certificate.der" := [Byte.x02; Byte.x01]]>
       {["/opt/gateway/certificates/private_key.pem" := [Byte.x01]]} |}.

Definition provisioned_state : @State nat Z nat string :=
  {| self := Demo.connector Demo.abc []; disk := provisioned_disk;
     world := 0; trace := [] |}.

Lemma provisioning_is_idempotent_witness :
  let E := Demo.env Demo.no_faults (λ _, 0%Z) in
  let s := provisioned_state in
  (io_fault E IoGetcwd (world s)).1 = None
  ∧ path_exists (cert_path_of (disk s)) (disk s) = true
  ∧ path_exists (private_key_path_of (disk s)) (disk s) = true
  ∧ generate_certificates E s =
     (Normal (cert_path_of (disk s), private_key_path_of (disk s)),
      {| self := self s; disk := disk s;
         world := (io_fault E IoGetcwd (world s)).2;
         trace := trace s ++
           [EvLog INFO MsgGeneratingCertificates; EvIo IoGetcwd;
            EvLog INFO
              (MsgUsingExistingCertificates (cert_dir_of (disk s)))] |}).
Proof.
  intros E s.
  assert ((io_fault E IoGetcwd (world s)).1 = None) as Hio
    by (vm_compute; reflexivity).
  assert (path_exists (cert_path_of (disk s)) (disk s) = true) as Hc
    by (vm_compute; reflexivity).
  assert (path_exists (private_key_path_of (disk s)) (disk s) = true) as Hk
    by (vm_compute; reflexivity).
  repeat (split; [assumption|]).
  exact (proj1 (provisioning_is_idempotent E s Hio) Hc Hk).
Defined.

(** Two calls in a row on an empty disk: the first writes both files, the
    second returns the same paths and leaves the disk as the first left
    it. *)
Example provisioning_twice :
  let E := Demo.env Demo.no_faults (λ _, 0%Z) in
  let first := generate_certificates E
                 (Demo.state (Demo.connector Demo.abc [])) in
  let second := generate_certificates E first.2 in
  first.1 = Normal ("/opt/gateway/certificates/certificate.der",
                    "/opt/gateway/certificates/private_key.pem")
  ∧ second.1 = first.1
  ∧ disk second.2 = disk first.2.
Proof.
  intros E first second.
  split; [|split]; vm_compute; reflexivity.
Qed.

(** ** The notification handler *)

Section Notifications.

Context {W Value Time Node PrivateKey Certificate : Type}.
Variable E : @Env W Value Time Node PrivateKey Certificate.
Local Abbreviation State := (@State W Value Time Node).

(** The point a node id resolves to: the first configured point with
    that id. *)
Definition resolve (nodes : list MonitoredPoint) (nid : string)
    : option MonitoredPoint :=
  find (λ n, bool_decide (node_id n = nid)) nodes.

(** The state after an accepted value for point [p]: the cache is written
    with the first clock reading, the callbacks are called with the second. *)
Definition accepted (p : MonitoredPoint) (value : Value) (logged : list Event)
    (s : State) : State :=
  let '(now, w0) := datetime_now E (world s) in
  let '(timestamp, w1) := datetime_now E w0 in
  let run := fanout E (value_callbacks (self s)) (node_name p) value
                    (node_unit p) timestamp w1 in
  {| self := with_latest_values
       (<[node_name p := value_record (PyVal value) (PyStr (node_unit p))
                                      (PyStr (isoformat E now))]>
          (latest_values (self s))) (self s);
     disk := disk s;
     world := run.2;
     trace := trace s ++ logged ++ run.1 |}.

Lemma store_latest_eq name value unit (s : State) :
  store_latest E name value unit s =
  (Normal tt,
   {| self := with_latest_values
        (<[name := value_record (PyVal value) (PyStr unit)
                     (PyStr (isoformat E (datetime_now E (world s)).1))]>
           (latest_values (self s))) (self s);
      disk := disk s;
      world := (datetime_now E (world s)).2;
      trace := trace s |}).
Proof.
  unfold store_latest. py_unfold. simpl.
  by destruct (datetime_now E (world s)).
Qed.

(** One delivery: an id that resolves is accepted, any other id is logged
    and dropped.  The handler never raises. *)
Lemma datachange_notification_eq node val (s : State) :
  datachange_notification E node val s =
  (Normal tt,
   match resolve (nodes_to_monitor (self s)) (nodeid_to_string E node) with
   | Some p =>
       accepted p val
         [EvLog INFO (MsgDataChange (node_name p) val
            (if bool_decide (node_unit p = "") then ""
             else " " +:+ node_unit p))] s
   | None => emit (EvLog INFO (MsgUnknownNode (nodeid_to_string E node) val)) s
   end).
Proof.
  unfold datachange_notification, resolve, try_except.
  unfold bind at 1. unfold get_self at 1.
  destruct (find _ (nodes_to_monitor (self s))) as [p|]; [|done].
  unfold bind at 1. rewrite store_latest_eq.
  unfold bind at 1. unfold log at 1, modify.
  rewrite notify_callbacks_fanout. unfold accepted. simpl.
  destruct (datetime_now E (world s)) as [now w0]. simpl.
  destruct (datetime_now E w0) as [timestamp w1].
  destruct (fanout E _ _ _ _ _ _) as [evs w2]. simpl.
  by rewrite <- app_assoc.
Qed.

(** A sequence of deliveries, in order. *)
Definition deliver (s : State) (n : Node * Value) : State :=
  (datachange_notification E n.1 n.2 s).2.

Definition deliver_all (ns : list (Node * Value)) (s : State) : State :=
  fold_left deliver ns s.

Lemma accepted_nodes p value logged (s : State) :
  nodes_to_monitor (self (accepted p value logged s)) =
  nodes_to_monitor (self s).
Proof.
  unfold accepted. destruct (datetime_now E (world s)) as [now w0].
  by destruct (datetime_now E w0).
Qed.

Lemma accepted_latest_values p value logged (s : State) :
  latest_values (self (accepted p value logged s)) =
  <[node_name p := value_record (PyVal value) (PyStr (node_unit p))
       (PyStr (isoformat E (datetime_now E (world s)).1))]>
    (latest_values (self s)).
Proof.
  unfold accepted. destruct (datetime_now E (world s)) as [now w0].
  by destruct (datetime_now E w0).
Qed.

Lemma deliver_nodes (s : State) n :
  nodes_to_monitor (self (deliver s n)) = nodes_to_monitor (self s).
Proof.
  unfold deliver. rewrite datachange_notification_eq. simpl.
  destruct (resolve _ _); [apply accepted_nodes | done].
Qed.

Lemma deliver_all_nodes ns (s : State) :
  nodes_to_monitor (self (deliver_all ns s)) = nodes_to_monitor (self s).
Proof.
  revert s. induction ns as [|n ns IH]; intros s; simpl; [done|].
  unfold deliver_all in *. simpl. by rewrite IH, deliver_nodes.
Qed.

Lemma resolve_Some nodes nid p :
  resolve nodes nid = Some p → p ∈ nodes ∧ node_id p = nid.
Proof.
  intros H. apply find_some in H as [H1 H2].
  split; [by apply list_elem_of_In | by apply bool_decide_eq_true in H2].
Qed.

Lemma NoDup_fmap_eq {A B} (f : A → B) (l : list A) x y :
  NoDup (f <$> l) → x ∈ l → y ∈ l → f x = f y → x = y.
Proof.
  induction l as [|a l IH]; simpl; [by intros _ ?%elem_of_nil|].
  intros [Hnotin Hnd]%NoDup_cons [->|Hx]%elem_of_cons [->|Hy]%elem_of_cons Hf;
    try done.
  - destruct Hnotin. rewrite Hf. by apply list_elem_of_fmap_2.
  - destruct Hnotin. rewrite <- Hf. by apply list_elem_of_fmap_2.
  - by apply IH.
Qed.

(** The cache entry of [P] after one delivery, when names are unique and
    [P]'s id resolves to [P]. *)
Lemma deliver_lookup (s : State) (P : MonitoredPoint) n :
  NoDup (node_name <$> nodes_to_monitor (self s)) →
  resolve (nodes_to_monitor (self s)) (node_id P) = Some P →
  latest_values (self (deliver s n)) !! node_name P =
  if bool_decide (nodeid_to_string E n.1 = node_id P)
  then Some (value_record (PyVal n.2) (PyStr (node_unit P))
               (PyStr (isoformat E (datetime_now E (world s)).1)))
  else latest_values (self s) !! node_name P.
Proof.
  intros Hnd HP. unfold deliver. rewrite datachange_notification_eq. simpl.
  case_bool_decide as Hid.
  - rewrite Hid, HP, accepted_latest_values. by rewrite lookup_insert_eq.
  - destruct (resolve _ (nodeid_to_string E n.1)) as [Q|] eqn:HQ; [|done].
    rewrite accepted_latest_values. apply lookup_insert_ne.
    intros Hname. apply resolve_Some in HQ as [HQin HQid].
    apply resolve_Some in HP as [HPin _].
    assert (Q = P) by (by eapply NoDup_fmap_eq). congruence.
Qed.

End Notifications.

Section LastNotification.

Context {W Value Time Node PrivateKey Certificate : Type}.
Variable E : @Env W Value Time Node PrivateKey Certificate.
Local Abbreviation State := (@State W Value Time Node).

(** No delivery of [ns] carries the id [nid]. *)
Definition none_for (nid : string) (ns : list (Node * Value)) : Prop :=
  Forall (λ n, nodeid_to_string E n.1 ≠ nid) ns.

(** After the deliveries [ns], the cache holds for [P] the value of the
    last delivery whose id is [P]'s configured id, with the clock reading
    taken when that delivery was handled. *)
Definition last_match_cached (s : State) (ns : list (Node * Value))
    (P : MonitoredPoint) : Prop :=
  ∀ pre node val post,
    ns = pre ++ (node, val) :: post →
    nodeid_to_string E node = node_id P →
    none_for (node_id P) post →
    latest_values (self (deliver_all E ns s)) !! node_name P =
    Some (value_record (PyVal val) (PyStr (node_unit P))
            (PyStr (isoformat E
                      (datetime_now E (world (deliver_all E pre s))).1))).

Lemma deliver_all_none_for (s : State) ns (P : MonitoredPoint) :
  NoDup (node_name <$> nodes_to_monitor (self s)) →
  resolve (nodes_to_monitor (self s)) (node_id P) = Some P →
  none_for (node_id P) ns →
  latest_values (self (deliver_all E ns s)) !! node_name P =
  latest_values (self s) !! node_name P.
Proof.
  intros Hnd HP Hns. revert s Hnd HP.
  induction Hns as [|n ns Hn Hns IH]; intros s Hnd HP; [done|].
  unfold deliver_all in *. simpl.
  rewrite IH; rewrite ?deliver_nodes; try done.
  rewrite deliver_lookup by done. by rewrite bool_decide_eq_false_2.
Qed.

Lemma last_match_cached_resolved (s : State) ns (P : MonitoredPoint) :
  NoDup (node_name <$> nodes_to_monitor (self s)) →
  resolve (nodes_to_monitor (self s)) (node_id P) = Some P →
  last_match_cached s ns P.
Proof.
  intros Hnd HP pre node val post -> Hid Hpost.
  unfold deliver_all. rewrite fold_left_app. simpl.
  fold (deliver_all E pre s).
  fold (deliver_all E post (deliver E (deliver_all E pre s) (node, val))).
  rewrite deliver_all_none_for;
    rewrite ?deliver_nodes, ?deliver_all_nodes; try done.
  rewrite deliver_lookup by by rewrite ?deliver_all_nodes.
  by rewrite bool_decide_eq_true_2.
Qed.

End LastNotification.

(** Two points configured with the same id. *)
Definition shared_id_points : list MonitoredPoint :=
  Demo.points [("ns=2;s=T", "A", "C"); ("ns=2;s=T", "B", "%")].

(** C1, as stated, fails for a point whose id is also the id of an earlier
    point: the delivery is resolved to the earlier point, and the later
    point stays out of the cache although a delivery carried its id. *)
Lemma last_match_not_cached_for_shared_id :
  let E := Demo.env Demo.no_faults (λ _, 0%Z) in
  let s := Demo.state (Demo.connector shared_id_points []) in
  let B := {| node_id := "ns=2;s=T"; node_name := "B"; node_unit := "%" |} in
  B ∈ nodes_to_monitor (self s)
  ∧ NoDup (node_name <$> nodes_to_monitor (self s))
  ∧ latest_values (self (deliver_all E [("ns=2;s=T", 21%Z)] s)) !! "B" = None
  ∧ ¬ last_match_cached E s [("ns=2;s=T", 21%Z)] B.
Proof.
  intros E s B. split; [|split; [|split]].
  - apply list_elem_of_In. simpl. tauto.
  - apply (bool_decide_unpack _). vm_compute. exact I.
  - vm_compute. reflexivity.
  - intros H.
    assert (none_for E (node_id B) []) as Hnone by constructor.
    specialize (H [] "ns=2;s=T" 21%Z [] eq_refl eq_refl Hnone).
    vm_compute in H. discriminate H.
Qed.

(** C1, amended.  Let no two configured points share a name and let [P] be
    the point its id resolves to.  After any sequence of deliveries the
    cache holds for [P] the value of the last delivery carrying [P]'s id,
    with [P]'s unit and the clock reading taken while that delivery was
    handled; if no delivery carried [P]'s id, the entry of [P] is what it
    was before (absent if it was absent).  A delivery whose id resolves to
    no point returns normally and only adds a log entry: the cache, the
    rest of the instance, the disk and the world are untouched and no
    callback is called. *)
Theorem last_resolved_notification_is_cached
    {W Value Time Node PrivateKey Certificate : Type}
    (E : @Env W Value Time Node PrivateKey Certificate)
    (s : @State W Value Time Node) (ns : list (Node * Value))
    (P : MonitoredPoint) :
  NoDup (node_name <$> nodes_to_monitor (self s)) →
  resolve (nodes_to_monitor (self s)) (node_id P) = Some P →
  last_match_cached E s ns P
  ∧ (none_for E (node_id P) ns →
     latest_values (self (deliver_all E ns s)) !! node_name P =
     latest_values (self s) !! node_name P)
  ∧ (∀ node val,
       resolve (nodes_to_monitor (self s)) (nodeid_to_string E node) = None →
       datachange_notification E node val s =
       (Normal tt,
        emit (EvLog INFO (MsgUnknownNode (nodeid_to_string E node) val)) s)).
Proof.
  intros Hnd HP. split; [|split].
  - by apply last_match_cached_resolved.
  - by apply deliver_all_none_for.
  - intros node val Hnone. rewrite datachange_notification_eq. by rewrite Hnone.
Qed.

Lemma last_resolved_notification_is_cached_witness :
  let E := Demo.env Demo.no_faults (λ _, 0%Z) in
  let s := Demo.state (Demo.connector Demo.abc [1]) in
  let ns := [("ns=2;s=A", 215%Z); ("ns=2;s=B", 60%Z); ("ns=2;s=A", 220%Z)] in
  let A := {| node_id := "ns=2;s=A"; node_name := "A"; node_unit := "C" |} in
  NoDup (node_name <$> nodes_to_monitor (self s))
  ∧ resolve (nodes_to_monitor (self s)) (node_id A) = Some A
  ∧ last_match_cached E s ns A.
Proof.
  intros E s ns A.
  assert (NoDup (node_name <$> nodes_to_monitor (self s))) as Hnd
    by (apply (bool_decide_unpack _); vm_compute; exact I).
  assert (resolve (nodes_to_monitor (self s)) (node_id A) = Some A) as HA
    by (vm_compute; reflexivity).
  split; [exact Hnd|]. split; [exact HA|].
  exact (proj1 (last_resolved_notification_is_cached E s ns A Hnd HA)).
Defined.

(** The scenario of three points: A=21.5, B=60, A=22.0 (in tenths) with one
    callback registered leaves A at 22.0 C, B at 60 %, C absent, and calls
    the callback three times. *)
Example scenario_three_points :
  let E := Demo.env Demo.no_faults (λ _, 0%Z) in
  let s := deliver_all E
    [("ns=2;s=A", 215%Z); ("ns=2;s=B", 600%Z); ("ns=2;s=A", 220%Z)]
    (Demo.state (Demo.connector Demo.abc [1])) in
  latest_values (self s) !! "A" =
    Some (value_record (PyVal 220%Z) (PyStr "C") (PyStr "T4"))
  ∧ latest_values (self s) !! "B" =
    Some (value_record (PyVal 600%Z) (PyStr "%") (PyStr "T2"))
  ∧ latest_values (self s) !! "C" = None
  ∧ deliveries (trace s) =
    [(1, "A", 215%Z, "C", 1); (1, "B", 600%Z, "%", 3); (1, "A", 220%Z, "C", 5)].
Proof.
  intros E s. split; [|split; [|split]]; vm_compute; reflexivity.
Qed.

(** ** Subscribing *)




(** A relation kept by the body for the elements of the list is kept by
    the loop. *)
Lemma keeps_for_each_in {St A} (R : St → St → Prop)
    `{!Reflexive R, !Transitive R} (l : list A) (body : A → Py St unit) :
  (∀ x, x ∈ l → keeps R (body x)) → keeps R (for_each l body).
Proof.
  induction l as [|x l IH]; intros Hbody; simpl.
  - by apply keeps_ret.
  - apply keeps_bind; [done | apply Hbody; by left |].
    intros _. apply IH. intros y Hy. apply Hbody. by right.
Qed.

Section Subscribe.

Context {W Value Time Node PrivateKey Certificate : Type}.
Variable E : @Env W Value Time Node PrivateKey Certificate.
Local Abbreviation State := (@State W Value Time Node).
Local Abbreviation Event := (@Event Value Time Node).






End Subscribe.

(** ** Seeding and live notifications *)

Section Seeding.

Context {W Value Time Node PrivateKey Certificate : Type}.
Variable E : @Env W Value Time Node PrivateKey Certificate.
Local Abbreviation State := (@State W Value Time Node).






End Seeding.





(** ** Reading the configuration *)

Lemma append_length (a b : string) :
  String.length (a +:+ b) = String.length a + String.length b.
Proof.
  induction a as [|x a IH]; rewrite ?append_nil, ?append_cons; simpl;
    [done | by rewrite IH].
Qed.

Lemma append_inj_l (a b c : string) : a +:+ c = b +:+ c → a = b.
Proof.
  revert b. induction a as [|x a IH]; intros [|y b];
    rewrite ?append_nil, ?append_cons; intros H.
  - done.
  - apply (f_equal String.length) in H. simpl in H.
    rewrite append_length in H. lia.
  - apply (f_equal String.length) in H. simpl in H.
    rewrite append_length in H. lia.
  - injection H as -> H. f_equal. by apply IH.
Qed.

(** The option names [node{i}_id], [node{i}_name], [node{i}_unit]. *)
Definition option_name (i : nat) (suffix : string) : string :=
  "node" +:+ pretty i +:+ suffix.

Lemma option_name_inj suffix : Inj (=) (=) (λ i, option_name i suffix).
Proof.
  intros i j H. unfold option_name in H.
  rewrite !append_cons, !append_nil in H.
  injection H as H. apply append_inj_l in H. by apply (inj pretty).
Qed.

(** As many [node{i}_id] options as there are cannot outnumber the options
    of the section. *)
Lemma id_options_bounded (sec : gmap string string) (n : nat) :
  (∀ k : nat, (1 ≤ k ≤ n)%nat → is_Some (sec !! option_name k "_id")) →
  (n ≤ size sec)%nat.
Proof.
  intros H.
  set (l := (λ i, option_name i "_id") <$> seq 1 n).
  assert (NoDup l) as Hnd.
  { apply NoDup_fmap_2; [apply option_name_inj | apply NoDup_seq]. }
  assert (length l = n) as Hlen
    by (subst l; by rewrite length_fmap, length_seq).
  rewrite <- Hlen.
  rewrite <- (size_list_to_set (C := gset string) l Hnd), <- size_dom.
  apply subseteq_size. intros x Hx.
  apply elem_of_list_to_set, list_elem_of_fmap in Hx as (k & -> & Hk).
  apply elem_of_seq in Hk. apply elem_of_dom, H. lia.
Qed.

Section Configuration.

Context {Value Time : Type}.



(** The loop stops within the fuel [__init__] is given. *)
Lemma parse_nodes_terminates fuel sec i acc :
  (∀ k : nat, (1 ≤ k < i)%nat → is_Some (sec !! option_name k "_id")) →
  (size sec + 1 < fuel + i)%nat →
  parse_nodes fuel sec i acc ≠ None.
Proof.
  revert i acc. induction fuel as [|fuel IH]; intros i acc Hfound Hfuel; simpl.
  - assert (i - 1 ≤ size sec)%nat; [|lia].
    apply id_options_bounded. intros k Hk. apply Hfound. lia.
  - fold (option_name i "_id") (option_name i "_name")
      (option_name i "_unit").
    destruct (sec !! option_name i "_id") as [nid|] eqn:Hid; [|done].
    destruct (sec !! option_name i "_name") as [nname|]; [|done].
    assert (∀ k : nat, (1 ≤ k < S i)%nat →
              is_Some (sec !! option_name k "_id")) as Hfound'.
    { intros k Hk. destruct (decide (k = i)) as [->|];
        [by rewrite Hid | apply Hfound; lia]. }
    exact (IH (S i) _ Hfound' ltac:(lia)).
Qed.

(** [__init__] returns or raises; it does not run out of fuel. *)
Lemma OpcUaConnector_init_terminates config :
  @OpcUaConnector_init Value Time config ≠ None.
Proof.
  unfold OpcUaConnector_init.
  repeat match goal with
         | |- context [config_get ?c ?a ?b] => destruct (config_get c a b)
         end; try done.
  unfold init_fuel.
  destruct (config !! "MONITORING") as [sec|]; [|done].
  change (default ∅ (Some sec)) with sec.
  assert (parse_nodes (S (size sec)) sec 1 [] ≠ None) as H.
  { apply parse_nodes_terminates; [intros k ?|]; lia. }
  by destruct (parse_nodes (S (size sec)) sec 1 []) as [[nodes|e]|].
Qed.


End Configuration.

(** ** The whole of [subscribe_to_nodes] *)

Section SubscribeToNodes.

Context {W Value Time Node PrivateKey Certificate : Type}.
Variable E : @Env W Value Time Node PrivateKey Certificate.
Local Abbreviation State := (@State W Value Time Node).
Local Abbreviation Event := (@Event Value Time Node).







(** Through the turn of a point the client and the subscription stay,
    and the list of points stays. *)
Definition same_subscription (s s' : State) : Prop :=
  client (self s') = client (self s)
  ∧ subscription (self s') = subscription (self s)
  ∧ nodes_to_monitor (self s') = nodes_to_monitor (self s)
  ∧ value_callbacks (self s') = value_callbacks (self s).

#[global] Instance same_subscription_refl : Reflexive same_subscription.
Proof. by intros s. Qed.
#[global] Instance same_subscription_trans : Transitive same_subscription.
Proof.
  unfold same_subscription. intros s1 s2 s3 (?&?&?&?) (?&?&?&?).
  repeat split; congruence.
Qed.






End SubscribeToNodes.

Section PartialSuccess.

Context {W Value Time Node PrivateKey Certificate : Type}.
Variable E : @Env W Value Time Node PrivateKey Certificate.
Local Abbreviation State := (@State W Value Time Node).
Local Abbreviation Event := (@Event Value Time Node).

(** What only grows during the turns: the handles and the trace. *)
Definition grown (s s' : State) : Prop :=
  (∃ hs, handles (self s') = handles (self s) ++ hs)
  ∧ (∃ evs, trace s' = trace s ++ evs).

#[global] Instance grown_refl : Reflexive grown.
Proof. intros s. split; exists []; by rewrite app_nil_r. Qed.
#[global] Instance grown_trans : Transitive grown.
Proof.
  intros s1 s2 s3 [[h1 H1] [e1 T1]] [[h2 H2] [e2 T2]]. split.
  - exists (h1 ++ h2). by rewrite H2, H1, app_assoc.
  - exists (e1 ++ e2). by rewrite T2, T1, app_assoc.
Qed.








End PartialSuccess.


(** A connected engine over the points A, B and C with one callback, in a
    world where the monitored item of B cannot be created. *)
Definition connected_abc : @State nat Z nat string :=
  Demo.state
    (with_connected true (with_client (Some 1)
       (Demo.connector Demo.abc [1]))).

Definition item_B_fails : Demo.Faults :=
  {| Demo.bad_nodes := ["ns=2;s=B"]; Demo.unreadable_nodes := [];
     Demo.bad_handles := []; Demo.bad_sinks := []; Demo.bad_io := [];
     Demo.refuse_connection := false; Demo.bad_crypto := false |}.


(** The scenario: B fails, A and C are subscribed and seeded, B is absent
    from the cache, the call returns [True]. *)
Example scenario_item_B_fails :
  let E := Demo.env item_B_fails (λ _, 7%Z) in
  let r := subscribe_to_nodes E connected_abc in
  r.1 = Normal true
  ∧ handles (self r.2) = [8%Z; 8%Z]
  ∧ latest_values (self r.2) !! "A" =
      Some (value_record (PyVal 7%Z) (PyStr "C") (PyStr "T0"))
  ∧ latest_values (self r.2) !! "B" = None
  ∧ latest_values (self r.2) !! "C" =
      Some (value_record (PyVal 7%Z) (PyStr "") (PyStr "T2"))
  ∧ deliveries (trace r.2) = [(1, "A", 7%Z, "C", 1); (1, "C", 7%Z, "", 3)].
Proof.
  intros E r. repeat (split; [vm_compute; reflexivity|]).
  vm_compute; reflexivity.
Qed.

(** ** The shape of the cache *)

Section CacheShape.

Context {W Value Time Node PrivateKey Certificate : Type}.
Variable E : @Env W Value Time Node PrivateKey Certificate.
Local Abbreviation State := (@State W Value Time Node).
Local Abbreviation PyObj := (@PyObj Value Time).





(** The cache and the points are as they were. *)
Definition same_cache (s s' : State) : Prop :=
  latest_values (self s') = latest_values (self s)
  ∧ nodes_to_monitor (self s') = nodes_to_monitor (self s).

#[global] Instance same_cache_refl : Reflexive same_cache.
Proof. by intros s. Qed.
#[global] Instance same_cache_trans : Transitive same_cache.
Proof. unfold same_cache. intros s1 s2 s3 [] []. split; congruence. Qed.














End CacheShape.



(** The entry of point C, configured without unit, after a notification. *)
Example entry_without_unit :
  let E := Demo.env Demo.no_faults (λ _, 0%Z) in
  let s := call E (CallDatachangeNotification "ns=2;s=C" 5%Z)
             (Demo.state (Demo.connector Demo.abc [])) in
  latest_values (self s) !! "C" =
  Some (value_record (PyVal 5%Z) (PyStr "") (PyStr "T0")).
Proof. intros E s. vm_compute. reflexivity. Qed.

(** ** The publish loop *)

Section PublishLoop.

Import MqttPublisher.

Context {W Value Time : Type}.
Variable E : @MqttPublisher.Env W Value Time.
Local Abbreviation State := (@MqttPublisher.State W Value Time).
Local Abbreviation Publisher := (@MqttPublisher.Publisher Value Time).
Local Abbreviation Interference := (@MqttPublisher.Interference Value Time).

(** The messages handed to the MQTT client: topic, payload, qos. *)
Definition published (tr : list MqttPublisher.Event)
    : list (string * string * Z) :=
  omap (λ ev, match ev with
              | EvPublish topic payload qos => Some (topic, payload, qos)
              | _ => None
              end) tr.



















End PublishLoop.

(** A concrete publisher: the payload shows the three fields, publishing
    never fails, and the world behind the MQTT client is trivial. *)
Definition demo_json_dumps (data : gmap string (@PyObj Z nat))
    : Outcome string :=
  match data !! "value", data !! "unit", data !! "timestamp" with
  | Some (PyVal v), Some (PyStr u), Some (PyStr t) =>
      Normal ("{value: " +:+ pretty v +:+ ", unit: " +:+ u +:+
              ", timestamp: " +:+ t +:+ "}")
  | _, _, _ => Raised "TypeError: not JSON serializable"
  end.

Definition demo_mqtt_env : @MqttPublisher.Env unit Z nat :=
  {| MqttPublisher.json_dumps := demo_json_dumps;
     MqttPublisher.client_publish := λ _ _ _ w, (Normal tt, w);
     MqttPublisher.isoformat := λ t, "T" +:+ pretty t;
     MqttPublisher.str := λ _, "?" |}.

Definition demo_publisher (is_connected : bool)
    : @MqttPublisher.State unit Z nat :=
  {| MqttPublisher.self :=
       {| MqttPublisher.topic_prefix := "opcua/plc/";
          MqttPublisher.publish_interval := 500;
          MqttPublisher.connected := is_connected;
          MqttPublisher.latest_values :=
            [("A", value_record (PyVal 215%Z) (PyStr "C") (PyStr "T1"))];
          MqttPublisher.keep_running := true |};
     MqttPublisher.world := tt;
     MqttPublisher.trace := [];
     MqttPublisher.slept := 0 |}.





(** Three cycles: the unchanged entry A is republished in each; B appears
    from the cycle after it arrived. *)
Example three_cycles :
  let schedule : list (list (@MqttPublisher.Interference Z nat)) :=
    [[]; [MqttPublisher.CallUpdateValue "B" 60%Z "%" (PyTime 2)]; []] in
  let r := MqttPublisher._publish_loop demo_mqtt_env schedule
             (demo_publisher true) in
  published (MqttPublisher.trace r.2) =
    [("opcua/plc/A", "{value: 215, unit: C, timestamp: T1}", 1%Z);
     ("opcua/plc/A", "{value: 215, unit: C, timestamp: T1}", 1%Z);
     ("opcua/plc/A", "{value: 215, unit: C, timestamp: T1}", 1%Z);
     ("opcua/plc/B", "{value: 60, unit: %, timestamp: T2}", 1%Z)]
  ∧ MqttPublisher.slept r.2 = 1500%Z.
Proof. intros schedule r. split; vm_compute; reflexivity. Qed.

(** Three callbacks of which the second raises at every call: all three
    are called, the raise is logged between the second and the third. *)
Example raising_sink_is_isolated :
  let faults :=
    {| Demo.bad_nodes := []; Demo.unreadable_nodes := [];
       Demo.bad_handles := []; Demo.bad_sinks := [2]; Demo.bad_io := [];
       Demo.refuse_connection := false; Demo.bad_crypto := false |} in
  let r := _notify_callbacks (Demo.env faults (λ _, 0%Z)) "A" 215%Z "C"
             (Demo.state (Demo.connector Demo.abc [1; 2; 3])) in
  r.1 = Normal tt
  ∧ trace r.2 =
      [EvCallback 1 "A" 215%Z "C" 0;
       EvCallback 2 "A" 215%Z "C" 0; EvRaised "simulated failure";
       EvLog ERROR (MsgErrorInCallback "simulated failure");
       EvCallback 3 "A" 215%Z "C" 0].
Proof. intros faults r. split; vm_compute; reflexivity. Qed.
